(** * Sentinel language server: diagnostics scanner and completion classifier

    A shallow embedding of [server/src/server.js] (the namespace-aware build
    of the server) and of the places where [server/src/server.ts] differs
    from it.

    Conventions of the embedding.
    - A JavaScript string is the list of its UTF-16 code units ([JSString]);
      the two regular expressions of the server carry no [u] flag, so they
      work on code units.
    - The module-level variables of the server ([hasConfigurationCapability],
      [globalSettings], [documentSettings], [documents], ...) are the fields
      of one record, [Server], threaded through the handlers by a small state
      monad.
    - The host editor is the other end of [connection]: what it would answer
      to a [workspace/configuration] request is a field of the state, and what
      the server sends to it is appended to an outbox. *)

From Stdlib Require Import ZArith NArith Ascii String Sorted.
From stdpp Require Import base option list gmap.
From Equations Require Import Equations.

Local Open Scope nat_scope.

(** ** JavaScript strings *)

Module JS.

Abbreviation JSString := (list N).

(** A string literal of the source, as code units. *)
Fixpoint lit (s : string) : JSString :=
  match s with
  | EmptyString => []
  | String a s' => N_of_ascii a :: lit s'
  end.

(** [s.substring(i, j)] for [i <= j]. *)
Definition substring (s : JSString) (i j : nat) : JSString :=
  take (j - i) (drop i s).

Definition between (lo hi c : N) : bool := ((lo <=? c) && (c <=? hi))%N.

(** The class [[A-Z]]. *)
Definition isUpper (c : N) : bool := between 65 90 c.

(** The word characters of [\b]: [[A-Za-z0-9_]]. *)
Definition isWordChar (c : N) : bool :=
  between 65 90 c || between 97 122 c || between 48 57 c || (c =? 95)%N.

(** The class [\s]: ECMAScript WhiteSpace and LineTerminator. *)
Definition isSpace (c : N) : bool :=
  (between 9 13 c || (c =? 32) || (c =? 160) || (c =? 5760)
   || between 8192 8202 c || (c =? 8232) || (c =? 8233) || (c =? 8239)
   || (c =? 8287) || (c =? 12288) || (c =? 65279))%N.

End JS.
Import JS.

(** ** The fragment of ECMAScript regular expressions the server uses

    Both patterns of the server are sequences of literal characters, greedy
    quantified character classes [cls{min,}], [\b] and [$].  The matcher is
    the backtracking one of the language: a quantified class first takes the
    longest run and gives characters back one at a time while the rest of the
    pattern fails. *)

Module RegExp.

Inductive atom : Type :=
| Chr (c : N)
| Rep (cls : N -> bool) (min : nat)
| WordB
| Eoi.

Definition regex : Type := list atom.

(** Is there a word character at index [i]? *)
Definition wordAt (text : JSString) (i : nat) : bool :=
  match text !! i with
  | Some c => isWordChar c
  | None => false
  end.

(** [\b] holds at [i] when exactly one of the characters at [i - 1] and
    [i] is a word character; outside the text there is none. *)
Definition wordBoundary (text : JSString) (i : nat) : bool :=
  xorb (match i with 0 => false | S j => wordAt text j end) (wordAt text i).

(** Length of the longest prefix of [l] inside the class. *)
Fixpoint runLength (cls : N -> bool) (l : JSString) : nat :=
  match l with
  | c :: l' => if cls c then S (runLength cls l') else 0
  | [] => 0
  end.

(** Try the continuation [k] after [n], [n - 1], ..., [min] characters. *)
Fixpoint backtrack (k : nat -> option nat) (min n : nat) : option nat :=
  if n <? min then None
  else match k n with
       | Some e => Some e
       | None => match n with
                 | 0 => None
                 | S n' => backtrack k min n'
                 end
       end.

(** Match the pattern at index [i]; the result is the end of the match. *)
Fixpoint matchAt (r : regex) (text : JSString) (i : nat) : option nat :=
  match r with
  | [] => Some i
  | Chr c :: r' =>
      match text !! i with
      | Some c' => if (c =? c')%N then matchAt r' text (S i) else None
      | None => None
      end
  | Rep cls min :: r' =>
      backtrack (fun n => matchAt r' text (i + n)) min
                (runLength cls (drop i text))
  | WordB :: r' => if wordBoundary text i then matchAt r' text i else None
  | Eoi :: r' => if i =? length text then matchAt r' text i else None
  end.

(** Leftmost match starting at one of [i], [i + 1], ..., [i + fuel - 1]. *)
Fixpoint search (r : regex) (text : JSString) (i fuel : nat)
  : option (nat * nat) :=
  match fuel with
  | 0 => None
  | S fuel' =>
      match matchAt r text i with
      | Some e => Some (i, e)
      | None => search r text (S i) fuel'
      end
  end.

(** The result of a successful [exec]: [m.index] and [m[0]]. *)
Record RegExpExecArray : Type := { index : nat; m0 : JSString }.

(** [pattern.exec(text)] for a pattern with the [g] flag whose [lastIndex]
    is [lastIndex]: the match, if any, and the new [lastIndex]. *)
Definition exec (r : regex) (text : JSString) (lastIndex : nat)
  : option RegExpExecArray * nat :=
  match search r text lastIndex (S (length text) - lastIndex) with
  | Some (i, e) => (Some {| index := i; m0 := substring text i e |}, e)
  | None => (None, 0)
  end.

(** [pattern.test(text)] for a pattern without the [g] flag. *)
Definition test (r : regex) (text : JSString) : bool :=
  match search r text 0 (S (length text)) with
  | Some _ => true
  | None => false
  end.

(** [/\b[A-Z]{2,}\b/g] *)
Definition uppercaseWord : regex := [WordB; Rep isUpper 2; WordB].

(** [/<name>\.\s*$/] *)
Definition namespaceDot (name : string) : regex :=
  map Chr (lit name) ++ [Chr 46%N; Rep isSpace 0; Eoi].

End RegExp.
Import RegExp.

(** ** The protocol types the handlers build and consume *)

Module LSP.

Record Position : Type := { line : nat; character : nat }.

Record Range : Type := { start : Position; end_ : Position }.

Record Location : Type := { location_uri : JSString; location_range : Range }.

Inductive DiagnosticSeverity : Type := Error | Warning | Information | Hint.

Record DiagnosticRelatedInformation : Type :=
  { location : Location; related_message : JSString }.

Record Diagnostic : Type :=
  { severity : DiagnosticSeverity;
    range : Range;
    message : JSString;
    source : JSString;
    relatedInformation : option (list DiagnosticRelatedInformation) }.

Inductive DocumentDiagnosticReportKind : Type := Full | Unchanged.

Record DocumentDiagnosticReport : Type :=
  { report_kind : DocumentDiagnosticReportKind; items : list Diagnostic }.

Inductive CompletionItemKind : Type := Method | Function | Field | Keyword.

Record CompletionItem : Type :=
  { label : JSString;
    kind : CompletionItemKind;
    data : Z;
    detail : option JSString;
    documentation : option JSString }.

(** The interface of an open document, as the handlers use it:
    [textDocument.uri], [getText()] and [getText(range)], [positionAt]. *)
Record TextDocument : Type :=
  { uri : JSString;
    getText : option Range -> JSString;
    positionAt : nat -> Position }.

Record ConfigurationItem : Type := { scopeUri : JSString; section : JSString }.

(** What the server sends to the host over [connection]. *)
Inductive Outgoing : Type :=
| WorkspaceConfiguration (item : ConfigurationItem)
| DiagnosticsRefresh.

End LSP.
Import LSP.

(** ** The server: module-level state *)

Record ExampleSettings : Type := { maxNumberOfProblems : Z }.

(** A promise of settings, seen once it has settled. *)
Inductive Thenable : Type := Settled (settings : ExampleSettings).

Definition await (p : Thenable) : ExampleSettings :=
  match p with Settled s => s end.

Record Server : Type :=
  { hasConfigurationCapability : bool;
    hasWorkspaceFolderCapability : bool;
    hasDiagnosticRelatedInformationCapability : bool;
    globalSettings : ExampleSettings;
    documentSettings : gmap JSString Thenable;
    documents : gmap JSString TextDocument;
    (** the host: its answer to a configuration request, and what it was sent *)
    hostConfiguration : ConfigurationItem -> ExampleSettings;
    outbox : list Outgoing }.

Definition defaultSettings : ExampleSettings := {| maxNumberOfProblems := 1000 |}.

(** Handlers read and write the state. *)
Definition Handler (A : Type) : Type := Server -> A * Server.

#[export] Instance handler_ret : MRet Handler := fun A a s => (a, s).

#[export] Instance handler_bind : MBind Handler :=
  fun A B f m s => let '(a, s') := m s in f a s'.

Definition get {A} (f : Server -> A) : Handler A := fun s => (f s, s).

Definition set_documentSettings (m : gmap JSString Thenable) : Handler unit :=
  fun s =>
    (tt, {| hasConfigurationCapability := hasConfigurationCapability s;
            hasWorkspaceFolderCapability := hasWorkspaceFolderCapability s;
            hasDiagnosticRelatedInformationCapability :=
              hasDiagnosticRelatedInformationCapability s;
            globalSettings := globalSettings s;
            documentSettings := m;
            documents := documents s;
            hostConfiguration := hostConfiguration s;
            outbox := outbox s |}).

Definition set_globalSettings (g : ExampleSettings) : Handler unit :=
  fun s =>
    (tt, {| hasConfigurationCapability := hasConfigurationCapability s;
            hasWorkspaceFolderCapability := hasWorkspaceFolderCapability s;
            hasDiagnosticRelatedInformationCapability :=
              hasDiagnosticRelatedInformationCapability s;
            globalSettings := g;
            documentSettings := documentSettings s;
            documents := documents s;
            hostConfiguration := hostConfiguration s;
            outbox := outbox s |}).

(** Send [msg] to the host. *)
Definition send (msg : Outgoing) : Handler unit :=
  fun s =>
    (tt, {| hasConfigurationCapability := hasConfigurationCapability s;
            hasWorkspaceFolderCapability := hasWorkspaceFolderCapability s;
            hasDiagnosticRelatedInformationCapability :=
              hasDiagnosticRelatedInformationCapability s;
            globalSettings := globalSettings s;
            documentSettings := documentSettings s;
            documents := documents s;
            hostConfiguration := hostConfiguration s;
            outbox := outbox s ++ [msg] |}).

(** [connection.workspace.getConfiguration(item)]: the request goes out and
    the promise settles to the host's answer. *)
Definition getConfiguration (item : ConfigurationItem) : Handler Thenable :=
  send (WorkspaceConfiguration item) ;;
  answer ← get hostConfiguration;
  mret (Settled (answer item)).

(** ** Settings *)

(** The payload of [workspace/didChangeConfiguration]:
    [change.settings.languageServerExample], absent or falsy as [None]. *)
Record DidChangeConfigurationParams : Type :=
  { languageServerExample : option ExampleSettings }.

Definition onDidChangeConfiguration (change : DidChangeConfigurationParams)
  : Handler unit :=
  cap ← get hasConfigurationCapability;
  (if cap : bool
   then set_documentSettings ∅
   else set_globalSettings (default defaultSettings (languageServerExample change))) ;;
  send DiagnosticsRefresh.

Definition getDocumentSettings (resource : JSString) : Handler Thenable :=
  cap ← get hasConfigurationCapability;
  if negb cap : bool
  then g ← get globalSettings; mret (Settled g)
  else
    cache ← get documentSettings;
    match cache !! resource with
    | Some result => mret result
    | None =>
        result ← getConfiguration {| scopeUri := resource;
                                     section := lit "languageServerExample" |};
        cache' ← get documentSettings;
        set_documentSettings (<[resource := result]> cache') ;;
        mret result
    end.

(** [documents.onDidClose] *)
Definition onDidClose (document : TextDocument) : Handler unit :=
  cache ← get documentSettings;
  set_documentSettings (delete (uri document) cache).

(** ** The diagnostics scanner *)

(** The body of the scanning loop: the finding for one match. *)
Definition diagnosticFor (related : bool) (textDocument : TextDocument)
    (m : RegExpExecArray) : Diagnostic :=
  let range := {| start := positionAt textDocument (index m);
                  end_ := positionAt textDocument (index m + length (m0 m)) |} in
  {| severity := Warning;
     range := range;
     message := m0 m ++ lit " is all uppercase.";
     source := lit "ex";
     relatedInformation :=
       if related
       then Some [ {| location := {| location_uri := uri textDocument;
                                     location_range := range |};
                      related_message := lit "Spelling matters" |};
                   {| location := {| location_uri := uri textDocument;
                                     location_range := range |};
                      related_message := lit "Particularly for names" |} ]
       else None |}.

(** ** Why the scanning loop ends

    The loop of [validateTextDocument] calls [exec] until it finds nothing;
    it ends because a match of [/\b[A-Z]{2,}\b/] is never empty. *)

Section Termination.

Implicit Types (text l : JSString) (cls : N -> bool) (k : nat -> option nat).

Lemma search_Some r text i fuel j e :
  search r text i fuel = Some (j, e) ->
  i <= j < i + fuel /\ matchAt r text j = Some e
  /\ forall j', i <= j' < j -> matchAt r text j' = None.
Proof.
  revert i. induction fuel as [|fuel IH]; intros i; simpl; [discriminate|].
  destruct (matchAt r text i) as [e'|] eqn:Hi.
  - intros [= <- <-]. repeat split; [lia..|assumption|intros; lia].
  - intros H. destruct (IH _ H) as ([? ?] & ? & Hmin).
    repeat split; [lia..|assumption|].
    intros j' ?. destruct (decide (j' = i)) as [->|]; [assumption|].
    apply Hmin. lia.
Qed.

Lemma backtrack_Some k min n e :
  backtrack k min n = Some e ->
  exists j, min <= j <= n /\ k j = Some e.
Proof.
  induction n as [|n IH]; simpl.
  - destruct (0 <? min) eqn:Hlt; [discriminate|].
    apply Nat.ltb_ge in Hlt. destruct (k 0) eqn:Hk; [|discriminate].
    intros [= <-]. exists 0. split; [lia|assumption].
  - destruct (S n <? min) eqn:Hlt; [discriminate|].
    apply Nat.ltb_ge in Hlt. destruct (k (S n)) eqn:Hk.
    + intros [= <-]. exists (S n). split; [lia|assumption].
    + intros H. destruct (IH H) as (j & ? & ?). exists j. split; [lia|assumption].
Qed.

Lemma runLength_le cls l : runLength cls l <= length l.
Proof. induction l as [|c l IH]; simpl; [lia|]. destruct (cls c); simpl; lia. Qed.

Lemma matchAt_uppercaseWord text i :
  matchAt uppercaseWord text i
  = if wordBoundary text i
    then backtrack (fun n => if wordBoundary text (i + n) then Some (i + n) else None)
                   2 (runLength isUpper (drop i text))
    else None.
Proof. reflexivity. Qed.

(** A match of [/\b[A-Z]{2,}\b/] is at least two characters long and lies
    inside the text. *)
Lemma matchAt_uppercaseWord_bounds text i e :
  matchAt uppercaseWord text i = Some e -> i + 2 <= e <= length text.
Proof.
  rewrite matchAt_uppercaseWord. destruct (wordBoundary text i); [|discriminate].
  intros (j & ? & Hk)%backtrack_Some.
  destruct (wordBoundary text (i + j)); [|discriminate].
  injection Hk as <-.
  pose proof (runLength_le isUpper (drop i text)) as Hle.
  rewrite length_drop in Hle. lia.
Qed.

(** Every successful [exec] of the scanner's pattern moves [lastIndex]
    forward, which is why the scanning loop ends. *)
Lemma exec_uppercaseWord_advances text lastIndex m lastIndex' :
  exec uppercaseWord text lastIndex = (Some m, lastIndex') ->
  S (length text) - lastIndex' < S (length text) - lastIndex.
Proof.
  unfold exec.
  destruct (search _ _ _ _) as [[i e]|] eqn:Hs; [|discriminate].
  intros [= _ <-].
  destruct (search_Some _ _ _ _ _ _ Hs) as (? & He & _).
  apply matchAt_uppercaseWord_bounds in He. lia.
Qed.

End Termination.

(** Keep the equation when matching on the result of [exec]. *)
Definition inspect {A : Type} (a : A) : {b : A | a = b} := exist _ a eq_refl.

(** [while ((m = pattern.exec(text)) && problems < settings.maxNumberOfProblems)]:
    [exec] runs first, the cap is tested only when it found a match. *)
Equations? scan (related : bool) (textDocument : TextDocument)
    (settings : ExampleSettings) (text : JSString)
    (lastIndex : nat) (problems : Z) : list Diagnostic
  by wf (S (length text) - lastIndex) lt :=
  scan related textDocument settings text lastIndex problems
    with inspect (exec uppercaseWord text lastIndex) := {
    | exist _ (Some m, lastIndex') Hexec
        with (problems <? maxNumberOfProblems settings)%Z := {
        | true => diagnosticFor related textDocument m
                  :: scan related textDocument settings text lastIndex'
                          (problems + 1)%Z
        | false => [] }
    | exist _ (None, _) _ => [] }.
Proof. exact (exec_uppercaseWord_advances _ _ _ _ Hexec). Qed.

Definition validateTextDocument (textDocument : TextDocument)
  : Handler (list Diagnostic) :=
  p ← getDocumentSettings (uri textDocument);
  related ← get hasDiagnosticRelatedInformationCapability;
  mret (scan related textDocument (await p) (getText textDocument None) 0 0%Z).

(** [connection.languages.diagnostics.on] *)
Definition onDiagnostics (params_uri : JSString) : Handler DocumentDiagnosticReport :=
  docs ← get documents;
  match docs !! params_uri with
  | Some document =>
      found ← validateTextDocument document;
      mret {| report_kind := Full; items := found |}
  | None => mret {| report_kind := Full; items := [] |}
  end.

(** [documents.onDidChangeContent] *)
Definition onDidChangeContent (document : TextDocument) : Handler unit :=
  validateTextDocument document ;; mret tt.

(** ** The completion classifier *)

(** A catalog entry [{ label, kind, data }]. *)
Definition item (l : string) (k : CompletionItemKind) (d : Z) : CompletionItem :=
  {| label := lit l; kind := k; data := d; detail := None; documentation := None |}.

(** Returned when the line matches [/strings\.\s*$/]. *)
Definition stringsCatalog : list CompletionItem :=
  [ item "has_prefix()" Method 1;
    item "has_suffix()" Method 2;
    item "join()" Method 3;
    item "trim_prefix()" Method 4;
    item "to_lower()" Method 5;
    item "to_upper()" Method 6;
    item "split()" Method 7 ].

(** Returned when the line matches [/json\.\s*$/]. *)
Definition jsonCatalog : list CompletionItem :=
  [ item "marshal()" Method 1;
    item "unmarshal()" Method 2 ].

(** Returned when the line matches [/http\.\s*$/]. *)
Definition httpCatalog : list CompletionItem :=
  [ item "get()" Method 1;
    item "request()" Method 2;
    item "post()" Method 3;
    item "client" Field 4;
    item "accept_status_codes" Function 5 ].

(** Returned when the line matches [/types\.\s*$/]. *)
Definition typesCatalog : list CompletionItem :=
  [ item "type_of()" Method 1 ].

(** Returned when the line matches [/base64\.\s*$/]. *)
Definition base64Catalog : list CompletionItem :=
  [ item "encode()" Method 1;
    item "decode()" Method 2;
    item "urlencode()" Method 3;
    item "urldecode()" Method 4 ].

(** Returned when the line matches [/time\.\s*$/]. *)
Definition timeCatalog : list CompletionItem :=
  [ item "now" Field 1;
    item "load()" Method 2;
    item "second" Field 3;
    item "millisecond" Field 4;
    item "nanosecond" Field 5;
    item "microsecond" Field 6;
    item "minute" Field 7;
    item "hour" Field 8 ].

(** Returned when the line matches [/decimal\.\s*$/]. *)
Definition decimalCatalog : list CompletionItem :=
  [ item "infinity()" Method 1;
    item "new()" Method 2;
    item "is_nan()" Method 3;
    item "nan" Field 4;
    item "is_infinite()" Method 5;
    item "string" Field 6;
    item "sign" Field 7;
    item "coefficient" Field 8;
    item "exponent" Field 9;
    item "float" Field 10;
    item "is()" Method 11;
    item "is_not()" Method 12;
    item "less_than()" Method 13;
    item "less_than_or_equals()" Method 14;
    item "greater_than()" Method 15;
    item "greater_than_or_equals()" Method 16;
    item "add()" Method 17;
    item "substract()" Method 17;
    item "multiply()" Method 18;
    item "divide()" Method 19;
    item "modulo()" Method 20;
    item "power()" Method 21;
    item "loge()" Method 22;
    item "sqaure_root()" Method 23;
    item "ceiling()" Method 24;
    item "floor()" Method 25;
    item "absolute()" Method 26;
    item "negate()" Method 26 ].

(** Returned when no pattern matches. *)
Definition defaultCatalog : list CompletionItem :=
  [ item "import" Keyword 1;
    item "for" Keyword 2;
    item "as" Keyword 3;
    item "filter" Keyword 4;
    item "if" Keyword 5;
    item "break" Keyword 6;
    item "continue" Keyword 7;
    item "in" Keyword 8;
    item "null" Keyword 9;
    item "rule" Keyword 10;
    item "param" Keyword 11;
    item "default" Keyword 12;
    item "map" Keyword 13;
    item "strings" Keyword 14;
    item "json" Keyword 15;
    item "http" Keyword 16;
    item "types" Keyword 17;
    item "decimal" Keyword 18;
    item "base64" Keyword 19;
    item "time" Keyword 20;
    item "print()" Method 21;
    item "error()" Method 22;
    item "length()" Method 23;
    item "append()" Method 24;
    item "delete()" Method 25;
    item "range()" Method 26;
    item "keys()" Method 27;
    item "values()" Method 28;
    item "int()" Method 29;
    item "string()" Method 30;
    item "float()" Method 30;
    item "bool()" Method 31;
    item "case" Method 32;
    item "when" Method 33;
    item "all" Method 34;
    item "any" Method 35;
    item "func()" Method 36;
    item "return" Keyword 37;
    item "undefined" Keyword 37 ].

(** The chain of [if (/<namespace>\.\s*$/.test(line)) return [...]] of
    [onCompletion], in the order of the source. *)
Definition completionsFor (line : JSString) : list CompletionItem :=
  if test (namespaceDot "strings") line then stringsCatalog
  else if test (namespaceDot "json") line then jsonCatalog
  else if test (namespaceDot "http") line then httpCatalog
  else if test (namespaceDot "types") line then typesCatalog
  else if test (namespaceDot "base64") line then base64Catalog
  else if test (namespaceDot "time") line then timeCatalog
  else if test (namespaceDot "decimal") line then decimalCatalog
  else defaultCatalog.

Record TextDocumentPositionParams : Type :=
  { textDocument_uri : JSString; position : Position }.

(** [connection.onCompletion] of [server.js] *)
Definition onCompletion (params : TextDocumentPositionParams)
  : Handler (list CompletionItem) :=
  docs ← get documents;
  match docs !! textDocument_uri params with
  | None => mret []
  | Some document =>
      let line := getText document
                    (Some {| start := {| line := line (position params);
                                         character := 0 |};
                             end_ := position params |}) in
      mret (completionsFor line)
  end.

(** [connection.onCompletionResolve] *)
Definition onCompletionResolve (it : CompletionItem) : CompletionItem :=
  if (data it =? 1)%Z
  then {| label := label it;
          kind := kind it;
          data := data it;
          detail := Some (lit "Import plugin or standard library");
          documentation := Some (lit "Import keyword allow us to import libraries") |}
  else it.

(** ** [server.ts]: the completion handler without namespaces *)

Module ServerTs.

(** A label that is itself a quoted string, such as ['"strings"']. *)
Definition quotedItem (l : string) (k : CompletionItemKind) (d : Z)
  : CompletionItem :=
  {| label := 34%N :: lit l ++ [34%N]; kind := k; data := d;
     detail := None; documentation := None |}.

(** The one list [onCompletion] of [server.ts] returns. *)
Definition catalog : list CompletionItem :=
  [ item "import" Keyword 1;
    item "for" Keyword 2;
    item "length()" Method 3;
    item "has_prefix()" Method 4;
    item "as" Keyword 5;
    item "filter" Keyword 6;
    item "if" Keyword 8;
    item "break" Keyword 9;
    item "continue" Keyword 10;
    item "has_suffix()" Method 11;
    item "in" Keyword 12;
    item "null" Keyword 13;
    item "print()" Method 14;
    item "append()" Method 15;
    item "delete()" Method 16;
    item "rule" Keyword 17;
    item "param" Keyword 18;
    item "default" Keyword 19;
    item "range()" Keyword 20;
    item "keys()" Keyword 21;
    item "map" Keyword 22;
    quotedItem "strings" Keyword 23;
    quotedItem "json" Keyword 24;
    quotedItem "http" Keyword 25;
    quotedItem "types" Keyword 26;
    quotedItem "decimal" Keyword 27;
    quotedItem "base64" Keyword 28;
    quotedItem "time" Keyword 29 ].

(** The position is ignored. *)
Definition onCompletion (_ : TextDocumentPositionParams) : list CompletionItem :=
  catalog.

End ServerTs.

(** ** The specification's vocabulary *)

(** "A run of two or more consecutive uppercase Latin letters bounded by
    word boundaries": the characters of [text] from offset [s] up to [e]. *)
Definition isUppercaseRun (text : JSString) (s e : nat) : bool :=
  (s + 2 <=? e) && (e <=? length text)
  && forallb isUpper (substring text s e)
  && wordBoundary text s && wordBoundary text e.

(** The candidate end offsets of a run that starts at [s]. *)
Definition endsFrom (n s : nat) : list nat := seq s (S n - s).

(** All pairs [s <= e <= n], by increasing [s], then [e]. *)
Definition intervals (n : nat) : list (nat * nat) :=
  flat_map (fun s => map (pair s) (endsFrom n s)) (seq 0 (S n)).

(** The uppercase runs of a text, from left to right. *)
Definition uppercaseRuns (text : JSString) : list (nat * nat) :=
  List.filter (fun p => isUppercaseRun text p.1 p.2) (intervals (length text)).

(** The runs that start at offset [s] (at most one), and those that start at
    or after [lastIndex]. *)
Definition runsAt (text : JSString) (s : nat) : list (nat * nat) :=
  map (pair s) (List.filter (isUppercaseRun text s) (endsFrom (length text) s)).

Definition runsFrom (text : JSString) (lastIndex : nat) : list (nat * nat) :=
  flat_map (runsAt text) (seq lastIndex (S (length text) - lastIndex)).

(** The finding the specification asks for a run. *)
Definition findingFor (textDocument : TextDocument) (related : bool)
    (run : nat * nat) : Diagnostic :=
  diagnosticFor related textDocument
    {| index := run.1;
       m0 := substring (getText textDocument None) run.1 run.2 |}.

(** A document without line breaks, for the examples: every offset is on
    line 0 and [getText(range)] cuts between the two (clamped) columns. *)
Definition singleLineDocument (u text : JSString) : TextDocument :=
  let offsetAt (p : Position) :=
    if line p =? 0 then character p `min` length text else length text in
  {| uri := u;
     getText := fun range =>
       match range with
       | None => text
       | Some r => substring text (offsetAt (start r)) (offsetAt (end_ r))
       end;
     positionAt := fun offset =>
       {| line := 0; character := offset `min` length text |} |}.

(** A server right after initialisation, with the two capability flags the
    handlers read, the host's configuration and the open documents given. *)
Definition serverWith (configuration relatedInformation : bool)
    (host : ConfigurationItem -> ExampleSettings)
    (docs : list TextDocument) : Server :=
  {| hasConfigurationCapability := configuration;
     hasWorkspaceFolderCapability := false;
     hasDiagnosticRelatedInformationCapability := relatedInformation;
     globalSettings := defaultSettings;
     documentSettings := ∅;
     documents := list_to_map (map (fun d => (uri d, d)) docs);
     hostConfiguration := host;
     outbox := [] |}.

(** The settings a scan of the document runs under, and its findings. *)
Definition settingsFor (textDocument : TextDocument) (server : Server)
  : ExampleSettings :=
  await (getDocumentSettings (uri textDocument) server).1.

Definition findings (textDocument : TextDocument) (server : Server)
  : list Diagnostic :=
  (validateTextDocument textDocument server).1.

(** "Ends with [<namespace>.] optionally followed only by whitespace". *)
Definition endsWithNamespace (name : string) (line : JSString) : Prop :=
  exists before spaces,
    line = before ++ lit name ++ lit "." ++ spaces
    /\ forallb isSpace spaces = true.

(** The namespaces with their catalogs, in the order [onCompletion] tests
    them. *)
Definition namespaceCatalogs : list (string * list CompletionItem) :=
  [ ("strings", stringsCatalog);
    ("json", jsonCatalog);
    ("http", httpCatalog);
    ("types", typesCatalog);
    ("base64", base64Catalog);
    ("time", timeCatalog);
    ("decimal", decimalCatalog) ]%string.

(** The item with the detail and documentation that resolving attaches. *)
Definition withImportDetail (it : CompletionItem) : CompletionItem :=
  {| label := label it;
     kind := kind it;
     data := data it;
     detail := Some (lit "Import plugin or standard library");
     documentation := Some (lit "Import keyword allow us to import libraries") |}.

(** ** Initialisation *)

Module Initialize.

(** The part of [params.capabilities] that [onInitialize] reads.  An absent
    object or property is [None]; a property that is present holds a
    boolean. *)
Record WorkspaceClientCapabilities : Type :=
  { configuration : option bool; workspaceFolders : option bool }.

Record PublishDiagnosticsClientCapabilities : Type :=
  { relatedInformation : option bool }.

Record TextDocumentClientCapabilities : Type :=
  { publishDiagnostics : option PublishDiagnosticsClientCapabilities }.

Record ClientCapabilities : Type :=
  { workspace : option WorkspaceClientCapabilities;
    textDocument : option TextDocumentClientCapabilities }.

Inductive TextDocumentSyncKind : Type := SyncNone | SyncFull | Incremental.

Record CompletionOptions : Type :=
  { resolveProvider : bool; triggerCharacters : list JSString }.

Record DiagnosticOptions : Type :=
  { interFileDependencies : bool; workspaceDiagnostics : bool }.

Record WorkspaceFoldersServerCapabilities : Type := { supported : bool }.

(** [result.capabilities]; [workspace] is set only in the [if]. *)
Record ServerCapabilities : Type :=
  { textDocumentSync : TextDocumentSyncKind;
    completionProvider : CompletionOptions;
    diagnosticProvider : DiagnosticOptions;
    workspace_workspaceFolders : option WorkspaceFoldersServerCapabilities }.

(** [!!x] for an optional boolean property. *)
Definition truthy (x : option bool) : bool := default false x.

(** [!!(o && f(o))] for an optional object [o]. *)
Definition andThen {A} (o : option A) (f : A -> bool) : bool :=
  match o with Some a => f a | None => false end.

End Initialize.

Definition set_capabilities (configuration workspaceFolders related : bool)
  : Handler unit :=
  fun s =>
    (tt, {| hasConfigurationCapability := configuration;
            hasWorkspaceFolderCapability := workspaceFolders;
            hasDiagnosticRelatedInformationCapability := related;
            globalSettings := globalSettings s;
            documentSettings := documentSettings s;
            documents := documents s;
            hostConfiguration := hostConfiguration s;
            outbox := outbox s |}).

(** [connection.onInitialize] of [server.js] *)
Definition onInitialize (capabilities : Initialize.ClientCapabilities)
  : Handler Initialize.ServerCapabilities :=
  let configuration :=
    Initialize.andThen (Initialize.workspace capabilities)
      (fun w => Initialize.truthy (Initialize.configuration w)) in
  let folders :=
    Initialize.andThen (Initialize.workspace capabilities)
      (fun w => Initialize.truthy (Initialize.workspaceFolders w)) in
  let related :=
    Initialize.andThen (Initialize.textDocument capabilities)
      (fun t => Initialize.andThen (Initialize.publishDiagnostics t)
                  (fun p => Initialize.truthy (Initialize.relatedInformation p))) in
  set_capabilities configuration folders related ;;
  folders' ← get hasWorkspaceFolderCapability;
  mret {| Initialize.textDocumentSync := Initialize.Incremental;
          Initialize.completionProvider :=
            {| Initialize.resolveProvider := true;
               Initialize.triggerCharacters := [lit "."] |};
          Initialize.diagnosticProvider :=
            {| Initialize.interFileDependencies := false;
               Initialize.workspaceDiagnostics := false |};
          Initialize.workspace_workspaceFolders :=
            if folders' : bool
            then Some {| Initialize.supported := true |}
            else None |}.

(** ** A session: the notifications and requests the server handles

    The document manager ([documents.listen]) and the host are not part of
    the server; between two handlers they may replace the document store and
    the host's configuration by anything. *)

Inductive Event : Type :=
| DidChangeConfiguration (change : DidChangeConfigurationParams)
| DidClose (document : TextDocument)
| DidChangeContent (document : TextDocument)
| DiagnosticsPull (params_uri : JSString)
| CompletionRequest (params : TextDocumentPositionParams)
| StoreChanged (docs : gmap JSString TextDocument)
| HostChanged (host : ConfigurationItem -> ExampleSettings).

Definition set_environment (docs : gmap JSString TextDocument)
    (host : ConfigurationItem -> ExampleSettings) (s : Server) : Server :=
  {| hasConfigurationCapability := hasConfigurationCapability s;
     hasWorkspaceFolderCapability := hasWorkspaceFolderCapability s;
     hasDiagnosticRelatedInformationCapability :=
       hasDiagnosticRelatedInformationCapability s;
     globalSettings := globalSettings s;
     documentSettings := documentSettings s;
     documents := docs;
     hostConfiguration := host;
     outbox := outbox s |}.

(** The state after one event. *)
Definition handle (e : Event) (s : Server) : Server :=
  match e with
  | DidChangeConfiguration change => (onDidChangeConfiguration change s).2
  | DidClose document => (onDidClose document s).2
  | DidChangeContent document => (onDidChangeContent document s).2
  | DiagnosticsPull params_uri => (onDiagnostics params_uri s).2
  | CompletionRequest params => (onCompletion params s).2
  | StoreChanged docs => set_environment docs (hostConfiguration s) s
  | HostChanged host => set_environment (documents s) host s
  end.

Definition run (events : list Event) (s : Server) : Server :=
  foldl (fun s e => handle e s) s events.

(** The configuration request [getDocumentSettings] sends for a uri. *)
Definition configurationRequest (resource : JSString) : Outgoing :=
  WorkspaceConfiguration {| scopeUri := resource;
                            section := lit "languageServerExample" |}.

(** The events after which a cached entry for [resource] may be gone. *)
Definition invalidates (resource : JSString) (e : Event) : bool :=
  match e with
  | DidChangeConfiguration _ => true
  | DidClose document => bool_decide (uri document = resource)
  | _ => false
  end.

Definition isConfigurationChange (e : Event) : bool :=
  match e with DidChangeConfiguration _ => true | _ => false end.

(** The module-level variables as the file initialises them. *)
Definition initialServer (host : ConfigurationItem -> ExampleSettings) : Server :=
  serverWith false false host [].

(** * Properties *)

(** ** Facts about the matcher *)

Section Matcher.

Implicit Types (text l : JSString) (cls : N -> bool) (k : nat -> option nat).

Lemma search_None r text i fuel :
  search r text i fuel = None ->
  forall j, i <= j < i + fuel -> matchAt r text j = None.
Proof.
  revert i. induction fuel as [|fuel IH]; intros i; simpl; [intros; lia|].
  destruct (matchAt r text i) eqn:Hi; [discriminate|].
  intros H j ?. destruct (decide (j = i)) as [->|]; [assumption|].
  apply (IH _ H). lia.
Qed.

Lemma backtrack_first k min n e :
  min <= n -> k n = Some e -> backtrack k min n = Some e.
Proof.
  intros Hle Hk. destruct n; simpl.
  - replace (0 <? min) with false by (symmetry; apply Nat.ltb_ge; lia).
    now rewrite Hk.
  - replace (S n <? min) with false by (symmetry; apply Nat.ltb_ge; lia).
    now rewrite Hk.
Qed.

Lemma runLength_take cls l j :
  j <= runLength cls l -> forallb cls (take j l) = true.
Proof.
  revert j. induction l as [|c l IH]; intros [|j]; simpl; try reflexivity.
  destruct (cls c) eqn:Hc; [|lia]. intros ?. simpl. apply IH. lia.
Qed.

Lemma runLength_ge cls l j :
  j <= length l -> forallb cls (take j l) = true -> j <= runLength cls l.
Proof.
  revert j. induction l as [|c l IH]; intros [|j]; simpl; try lia.
  intros ? [Hc ?]%andb_prop. rewrite Hc. apply le_n_S, IH; [lia|assumption].
Qed.

Lemma runLength_lookup cls l j :
  j < runLength cls l -> exists c, l !! j = Some c /\ cls c = true.
Proof.
  revert j. induction l as [|c l IH]; simpl; [lia|].
  destruct (cls c) eqn:Hc; [|lia].
  intros [|j] ?; [exists c; auto|]. apply IH. lia.
Qed.

Lemma isUpper_isWordChar c : isUpper c = true -> isWordChar c = true.
Proof. unfold isUpper, isWordChar. now intros ->. Qed.

(** Inside a run of capitals there is no word boundary. *)
Lemma wordBoundary_inside text i j :
  0 < j < runLength isUpper (drop i text) -> wordBoundary text (i + j) = false.
Proof.
  intros Hj.
  destruct (runLength_lookup isUpper (drop i text) (j - 1)) as (c1 & H1 & U1); [lia|].
  destruct (runLength_lookup isUpper (drop i text) j) as (c2 & H2 & U2); [lia|].
  rewrite lookup_drop in H1, H2. unfold wordBoundary, wordAt.
  replace (i + j) with (S (i + (j - 1))) at 1 by lia.
  rewrite H1, H2, (isUpper_isWordChar _ U1), (isUpper_isWordChar _ U2).
  reflexivity.
Qed.

End Matcher.

(** ** The scanning loop, unfolded once *)

Lemma scan_step related textDocument settings text lastIndex problems :
  scan related textDocument settings text lastIndex problems
  = match exec uppercaseWord text lastIndex with
    | (Some m, lastIndex') =>
        if (problems <? maxNumberOfProblems settings)%Z
        then diagnosticFor related textDocument m
             :: scan related textDocument settings text lastIndex' (problems + 1)%Z
        else []
    | (None, _) => []
    end.
Proof.
  funelim (scan related textDocument settings text lastIndex problems);
    match goal with He : exec _ _ _ = _ |- _ => rewrite He end;
    try match goal with Hb : (_ <? _)%Z = _ |- _ => rewrite Hb end;
    reflexivity.
Qed.

(** ** Uppercase runs and the pattern [/\b[A-Z]{2,}\b/] *)

Section Runs.

Implicit Types (text : JSString).

Lemma isUppercaseRun_spec text s e :
  isUppercaseRun text s e = true <->
  s + 2 <= e <= length text
  /\ forallb isUpper (substring text s e) = true
  /\ wordBoundary text s = true /\ wordBoundary text e = true.
Proof.
  unfold isUppercaseRun. rewrite !andb_true_iff, Nat.leb_le, Nat.leb_le. tauto.
Qed.

(** A run ends where the capitals end. *)
Lemma isUppercaseRun_end text s e :
  isUppercaseRun text s e = true -> e = s + runLength isUpper (drop s text).
Proof.
  intros ([? ?] & Hup & _ & He)%isUppercaseRun_spec.
  assert (e - s <= runLength isUpper (drop s text)) as Hle.
  { apply runLength_ge; [rewrite length_drop; lia|exact Hup]. }
  destruct (decide (e - s = runLength isUpper (drop s text))); [lia|].
  assert (wordBoundary text (s + (e - s)) = false) as Hin
    by (apply wordBoundary_inside; lia).
  replace (s + (e - s)) with e in Hin by lia. congruence.
Qed.

Lemma matchAt_uppercaseWord_iff text i e :
  matchAt uppercaseWord text i = Some e <-> isUppercaseRun text i e = true.
Proof.
  split.
  - intros Hm. pose proof (matchAt_uppercaseWord_bounds _ _ _ Hm) as Hb.
    rewrite matchAt_uppercaseWord in Hm.
    destruct (wordBoundary text i) eqn:Hi; [|discriminate].
    apply backtrack_Some in Hm as (j & ? & Hk).
    destruct (wordBoundary text (i + j)) eqn:Hj; [|discriminate].
    injection Hk as <-. apply isUppercaseRun_spec. repeat split; try lia; try assumption.
    unfold substring. replace (i + j - i) with j by lia.
    apply runLength_take. lia.
  - intros Hrun. pose proof (isUppercaseRun_end _ _ _ Hrun) as ->.
    apply isUppercaseRun_spec in Hrun as ([? ?] & _ & Hi & He).
    rewrite matchAt_uppercaseWord, Hi.
    apply backtrack_first; [lia|]. now rewrite He.
Qed.

Lemma isUppercaseRun_unique text s e e' :
  isUppercaseRun text s e = true -> isUppercaseRun text s e' = true -> e = e'.
Proof. intros ->%isUppercaseRun_end ->%isUppercaseRun_end. reflexivity. Qed.

(** No run starts strictly inside another one. *)
Lemma isUppercaseRun_inside text s e s' e' :
  isUppercaseRun text s e = true -> s < s' < e -> isUppercaseRun text s' e' = false.
Proof.
  intros Hrun ?. pose proof (isUppercaseRun_end _ _ _ Hrun).
  destruct (isUppercaseRun text s' e') eqn:Hrun'; [|reflexivity].
  apply isUppercaseRun_spec in Hrun' as (_ & _ & Hs' & _).
  assert (wordBoundary text (s + (s' - s)) = false) as Hin
    by (apply wordBoundary_inside; lia).
  replace (s + (s' - s)) with s' in Hin by lia. congruence.
Qed.

Lemma filter_flat_map {A B} (P : B -> bool) (f : A -> list B) (l : list A) :
  List.filter P (flat_map f l) = flat_map (fun x => List.filter P (f x)) l.
Proof.
  induction l as [|x l IH]; simpl; [reflexivity|].
  now rewrite List.filter_app, IH.
Qed.

Lemma filter_pair {A B} (P : A * B -> bool) (a : A) (l : list B) :
  List.filter P (map (pair a) l) = map (pair a) (List.filter (fun b => P (a, b)) l).
Proof.
  induction l as [|b l IH]; simpl; [reflexivity|].
  destruct (P (a, b)); simpl; now rewrite IH.
Qed.

Lemma filter_none {A} (P : A -> bool) (l : list A) :
  (forall x, In x l -> P x = false) -> List.filter P l = [].
Proof.
  induction l as [|x l IH]; simpl; intros H; [reflexivity|].
  rewrite (H x) by auto. apply IH. auto.
Qed.

Lemma flat_map_none {A B} (f : A -> list B) (l : list A) :
  (forall x, In x l -> f x = []) -> flat_map f l = [].
Proof.
  induction l as [|x l IH]; simpl; intros H; [reflexivity|].
  rewrite (H x) by auto. apply IH. auto.
Qed.

Lemma uppercaseRuns_runsFrom text : uppercaseRuns text = runsFrom text 0.
Proof.
  unfold uppercaseRuns, intervals, runsFrom. rewrite filter_flat_map, Nat.sub_0_r.
  apply flat_map_ext. intros s. apply filter_pair.
Qed.

Lemma runsAt_none text s :
  (forall e, isUppercaseRun text s e = false) -> runsAt text s = [].
Proof. intros H. unfold runsAt. rewrite filter_none; [reflexivity|auto]. Qed.

Lemma runsAt_one text s e :
  isUppercaseRun text s e = true -> runsAt text s = [(s, e)].
Proof.
  intros Hrun. pose proof Hrun as ([? ?] & _)%isUppercaseRun_spec.
  unfold runsAt, endsFrom.
  replace (S (length text) - s) with ((e - s) + S (length text - e)) by lia.
  rewrite seq_app, List.filter_app. simpl.
  replace (s + (e - s)) with e by lia. rewrite Hrun.
  rewrite !filter_none; [reflexivity| |].
  - intros x [? ?]%in_seq. destruct (isUppercaseRun text s x) eqn:Hx; [|reflexivity].
    pose proof (isUppercaseRun_unique _ _ _ _ Hrun Hx). lia.
  - intros x [? ?]%in_seq. destruct (isUppercaseRun text s x) eqn:Hx; [|reflexivity].
    pose proof (isUppercaseRun_unique _ _ _ _ Hrun Hx). lia.
Qed.

Lemma runsFrom_none text lastIndex :
  (forall s e, lastIndex <= s -> isUppercaseRun text s e = false) ->
  runsFrom text lastIndex = [].
Proof.
  intros H. apply flat_map_none. intros s [? ?]%in_seq.
  apply runsAt_none. intros e. apply H. lia.
Qed.

(** The first run at or after [lastIndex], then the runs after its end. *)
Lemma runsFrom_first text lastIndex s e :
  lastIndex <= s -> isUppercaseRun text s e = true ->
  (forall s' e', lastIndex <= s' < s -> isUppercaseRun text s' e' = false) ->
  runsFrom text lastIndex = (s, e) :: runsFrom text e.
Proof.
  intros Hle Hrun Hmin. pose proof Hrun as ([? ?] & _)%isUppercaseRun_spec.
  unfold runsFrom.
  replace (S (length text) - lastIndex)
    with ((s - lastIndex) + (S (e - S s) + (S (length text) - e))) by lia.
  rewrite seq_app, flat_map_app, flat_map_none; simpl.
  - replace (lastIndex + (s - lastIndex)) with s by lia.
    rewrite (runsAt_one _ _ _ Hrun), seq_app, flat_map_app, flat_map_none; simpl.
    + replace (S (s + (e - S s))) with e by lia. reflexivity.
    + intros s' [? ?]%in_seq. apply runsAt_none. intros e'.
      apply (isUppercaseRun_inside _ _ _ _ _ Hrun). lia.
  - intros s' [? ?]%in_seq. apply runsAt_none. intros e'. apply Hmin. lia.
Qed.

(** What [exec] finds is the first run at or after [lastIndex]. *)
Lemma exec_uppercaseWord_Some text lastIndex m lastIndex' :
  exec uppercaseWord text lastIndex = (Some m, lastIndex') ->
  m = {| index := index m; m0 := substring text (index m) lastIndex' |}
  /\ lastIndex' = index m + length (m0 m)
  /\ runsFrom text lastIndex = (index m, lastIndex') :: runsFrom text lastIndex'
  /\ lastIndex <= index m
  /\ isUppercaseRun text (index m) lastIndex' = true.
Proof.
  unfold exec. destruct (search _ _ _ _) as [[i e]|] eqn:Hs; [|discriminate].
  intros [= <- <-]. simpl.
  destruct (search_Some _ _ _ _ _ _ Hs) as ([? ?] & He & Hmin).
  apply matchAt_uppercaseWord_iff in He.
  pose proof He as ([? ?] & _)%isUppercaseRun_spec.
  split; [reflexivity|]. split; [|split; [|split; [lia|assumption]]].
  - unfold substring. rewrite length_take, length_drop. lia.
  - apply runsFrom_first; [lia|assumption|].
    intros s' e' ?. destruct (isUppercaseRun text s' e') eqn:Hrun; [|reflexivity].
    apply matchAt_uppercaseWord_iff in Hrun. rewrite Hmin in Hrun by lia. discriminate.
Qed.

Lemma exec_uppercaseWord_None text lastIndex lastIndex' :
  exec uppercaseWord text lastIndex = (None, lastIndex') ->
  runsFrom text lastIndex = [].
Proof.
  unfold exec. destruct (search _ _ _ _) as [[i e]|] eqn:Hs; [discriminate|].
  intros _. apply runsFrom_none. intros s e ?.
  destruct (isUppercaseRun text s e) eqn:Hrun; [|reflexivity].
  pose proof Hrun as ([? ?] & _)%isUppercaseRun_spec.
  apply matchAt_uppercaseWord_iff in Hrun.
  rewrite (search_None _ _ _ _ Hs s) in Hrun by lia. discriminate.
Qed.

End Runs.

(** ** The scanner against the list of runs *)

Section Scanner.

Implicit Types (textDocument : TextDocument) (server : Server).

Lemma scan_runsFrom related textDocument settings text lastIndex problems :
  scan related textDocument settings text lastIndex problems
  = map (fun run => diagnosticFor related textDocument
                      {| index := run.1; m0 := substring text run.1 run.2 |})
        (take (Z.to_nat (maxNumberOfProblems settings - problems))
              (runsFrom text lastIndex)).
Proof.
  funelim (scan related textDocument settings text lastIndex problems);
    clear Heqcall.
  - match goal with He : exec _ _ _ = _ |- _ =>
      rewrite (exec_uppercaseWord_None _ _ _ He) end.
    now rewrite take_nil.
  - match goal with He : exec _ _ _ = _ |- _ =>
      destruct (exec_uppercaseWord_Some _ _ _ _ He) as (Hm & _ & -> & _) end.
    match goal with Hb : (_ <? _)%Z = true |- _ => apply Z.ltb_lt in Hb end.
    replace (Z.to_nat (maxNumberOfProblems settings - problems))
      with (S (Z.to_nat (maxNumberOfProblems settings - (problems + 1)))) by lia.
    simpl. rewrite <- Hm. f_equal.
    match goal with IH : scan _ _ _ _ _ _ = _ |- _ => exact IH end.
  - match goal with Hb : (_ <? _)%Z = false |- _ => apply Z.ltb_ge in Hb end.
    replace (Z.to_nat (maxNumberOfProblems settings - problems)) with 0 by lia.
    reflexivity.
Qed.

(** Resolving settings does not touch the capability flags or the store. *)
Lemma getDocumentSettings_frame resource server :
  let server' := (getDocumentSettings resource server).2 in
  hasConfigurationCapability server' = hasConfigurationCapability server
  /\ hasDiagnosticRelatedInformationCapability server'
     = hasDiagnosticRelatedInformationCapability server
  /\ documents server' = documents server
  /\ globalSettings server' = globalSettings server.
Proof.
  unfold getDocumentSettings, get, mbind, handler_bind, mret, handler_ret. simpl.
  destruct (hasConfigurationCapability server) eqn:Hcap; simpl; [|auto].
  destruct (documentSettings server !! resource); simpl; auto.
Qed.

Lemma validateTextDocument_eq textDocument server :
  validateTextDocument textDocument server
  = (scan (hasDiagnosticRelatedInformationCapability server) textDocument
          (settingsFor textDocument server) (getText textDocument None) 0 0%Z,
     (getDocumentSettings (uri textDocument) server).2).
Proof.
  unfold settingsFor, validateTextDocument.
  pose proof (getDocumentSettings_frame (uri textDocument) server) as (_ & Hrel & _).
  unfold mbind, handler_bind at 1.
  destruct (getDocumentSettings (uri textDocument) server) as [p server'].
  simpl in *. unfold get, mbind, handler_bind, mret, handler_ret.
  now rewrite Hrel.
Qed.

(** The findings are the findings of the first [maxNumberOfProblems] runs. *)
Lemma findings_runs textDocument server :
  findings textDocument server
  = map (findingFor textDocument (hasDiagnosticRelatedInformationCapability server))
        (take (Z.to_nat (maxNumberOfProblems (settingsFor textDocument server)))
              (uppercaseRuns (getText textDocument None))).
Proof.
  unfold findings. rewrite validateTextDocument_eq. simpl.
  rewrite scan_runsFrom, uppercaseRuns_runsFrom, Z.sub_0_r. reflexivity.
Qed.

Lemma runsFrom_sorted text n : forall lastIndex,
  S (length text) - lastIndex <= n ->
  StronglySorted (fun a b : nat * nat => a.2 <= b.1) (runsFrom text lastIndex)
  /\ Forall (fun run => lastIndex <= run.1 /\ isUppercaseRun text run.1 run.2 = true)
            (runsFrom text lastIndex).
Proof.
  induction n as [|n IH]; intros lastIndex Hn.
  - rewrite runsFrom_none; [split; constructor|].
    intros s e ?. destruct (isUppercaseRun text s e) eqn:Hrun; [|reflexivity].
    apply isUppercaseRun_spec in Hrun. lia.
  - destruct (exec uppercaseWord text lastIndex) as [[m|] lastIndex'] eqn:He.
    + pose proof (exec_uppercaseWord_advances _ _ _ _ He).
      destruct (exec_uppercaseWord_Some _ _ _ _ He) as (_ & _ & -> & ? & ?).
      destruct (IH lastIndex') as [Hsorted Hall]; [lia|].
      pose proof (isUppercaseRun_spec text (index m) lastIndex') as [Hb _].
      split.
      * constructor; [assumption|].
        eapply Forall_impl; [exact Hall|]. simpl. tauto.
      * constructor; [auto|].
        eapply Forall_impl; [exact Hall|]. simpl. intros run [? ?].
        split; [|assumption]. destruct Hb as ([? ?] & _); [assumption|lia].
    + rewrite (exec_uppercaseWord_None _ _ _ He). split; constructor.
Qed.

End Scanner.

(** ** The diagnostic scanner: count, order and content of the findings *)

Example uppercaseRuns_scenario_A : uppercaseRuns (lit "let X = FOO") = [(8, 11)].
Proof. vm_compute. reflexivity. Qed.

Example uppercaseRuns_scenario_B :
  uppercaseRuns (lit "AA BB CC") = [(0, 2); (3, 5); (6, 8)].
Proof. vm_compute. reflexivity. Qed.

(** C1. For every document and every settings value with
    [maxNumberOfProblems >= 0], [validateTextDocument] returns exactly
    min (number of uppercase runs of the text, [maxNumberOfProblems])
    findings.  With [maxNumberOfProblems = 0] there is no finding, and the
    text "AA BB CC" with [maxNumberOfProblems = 2] gives exactly two findings,
    for "AA" and for "BB". *)
Theorem validateTextDocument_count textDocument server :
  (0 <= maxNumberOfProblems (settingsFor textDocument server))%Z ->
  Z.of_nat (length (findings textDocument server))
  = Z.min (Z.of_nat (length (uppercaseRuns (getText textDocument None))))
          (maxNumberOfProblems (settingsFor textDocument server))
  /\ (maxNumberOfProblems (settingsFor textDocument server) = 0%Z ->
      findings textDocument server = [])
  /\ (getText textDocument None = lit "AA BB CC" ->
      maxNumberOfProblems (settingsFor textDocument server) = 2%Z ->
      findings textDocument server
      = map (findingFor textDocument
               (hasDiagnosticRelatedInformationCapability server))
            [(0, 2); (3, 5)]
      /\ map message (findings textDocument server)
         = [lit "AA is all uppercase."; lit "BB is all uppercase."]).
Proof.
  intros Hmax. rewrite findings_runs. split; [|split].
  - rewrite length_map, length_take. lia.
  - intros ->. reflexivity.
  - intros Htext ->. rewrite Htext, uppercaseRuns_scenario_B. split; [reflexivity|].
    simpl. unfold findingFor. simpl. rewrite Htext. reflexivity.
Qed.

Lemma validateTextDocument_count_witness :
  let textDocument := singleLineDocument (lit "file:///policy.sentinel") (lit "AA BB CC") in
  let server := serverWith true false (fun _ => {| maxNumberOfProblems := 2 |}) [textDocument] in
  (0 <= maxNumberOfProblems (settingsFor textDocument server))%Z
  /\ Z.of_nat (length (findings textDocument server)) = 2%Z.
Proof.
  intros textDocument server.
  assert (0 <= maxNumberOfProblems (settingsFor textDocument server))%Z as H
    by (vm_compute; discriminate).
  split; [exact H|].
  rewrite (proj1 (validateTextDocument_count textDocument server H)).
  vm_compute. reflexivity.
Defined.

(** C2. The findings of a document are those of a prefix of its uppercase
    runs taken from left to right: the runs do not overlap, each one starts at
    or after the end of the one before, and the finding of a run is a Warning
    whose range goes from the run's start offset to its end offset, whose
    message is the run followed by " is all uppercase." and whose source is
    "ex".  The document "let X = FOO" has exactly one finding, for "FOO" at
    offsets 8 to 11 and not for "X", with message "FOO is all uppercase.". *)
Theorem findings_in_order textDocument server :
  let text := getText textDocument None in
  (exists runs rest,
      uppercaseRuns text = runs ++ rest
      /\ StronglySorted (fun a b : nat * nat => a.2 <= b.1) (uppercaseRuns text)
      /\ Forall (fun run => isUppercaseRun text run.1 run.2 = true) runs
      /\ Forall2 (fun d run =>
                    severity d = Warning
                    /\ range d = {| start := positionAt textDocument run.1;
                                    end_ := positionAt textDocument run.2 |}
                    /\ message d = substring text run.1 run.2 ++ lit " is all uppercase."
                    /\ source d = lit "ex")
                 (findings textDocument server) runs)
  /\ (text = lit "let X = FOO" ->
      (1 <= maxNumberOfProblems (settingsFor textDocument server))%Z ->
      exists d, findings textDocument server = [d]
                /\ range d = {| start := positionAt textDocument 8;
                                end_ := positionAt textDocument 11 |}
                /\ message d = lit "FOO is all uppercase.").
Proof.
  intros text. rewrite findings_runs. fold text.
  set (cap := Z.to_nat (maxNumberOfProblems (settingsFor textDocument server))).
  destruct (runsFrom_sorted text (S (length text)) 0) as [Hsorted Hall]; [lia|].
  rewrite <- uppercaseRuns_runsFrom in Hsorted, Hall.
  split.
  - exists (take cap (uppercaseRuns text)), (drop cap (uppercaseRuns text)).
    split; [symmetry; apply take_drop|]. split; [exact Hsorted|]. split.
    + apply Forall_take. eapply Forall_impl; [exact Hall|]. simpl. tauto.
    + apply Forall2_fmap_l, Forall_Forall2_diag, Forall_take.
      eapply Forall_impl; [exact Hall|]. simpl.
      intros run [_ ([? ?] & _)%isUppercaseRun_spec].
      unfold findingFor, diagnosticFor. simpl. fold text.
      repeat split. do 2 f_equal.
      unfold substring. rewrite length_take, length_drop. lia.
  - intros Htext Hmax. rewrite Htext, uppercaseRuns_scenario_A.
    replace cap with (S (cap - 1)) by (unfold cap; lia). simpl.
    rewrite take_nil. simpl.
    eexists. split; [reflexivity|]. unfold findingFor, diagnosticFor. simpl.
    fold text. rewrite Htext. split; reflexivity.
Qed.

Lemma findings_in_order_witness :
  let textDocument := singleLineDocument (lit "file:///policy.sentinel") (lit "let X = FOO") in
  let server := serverWith false true (fun _ => defaultSettings) [textDocument] in
  exists d, findings textDocument server = [d]
            /\ range d = {| start := {| line := 0; character := 8 |};
                            end_ := {| line := 0; character := 11 |} |}
            /\ message d = lit "FOO is all uppercase.".
Proof.
  intros textDocument server.
  destruct (proj2 (findings_in_order textDocument server)) as (d & Hd & Hrange & Hmsg);
    [reflexivity|vm_compute; discriminate|].
  exists d. split; [exact Hd|]. split; [exact Hrange|exact Hmsg].
Defined.

(** C8. Every finding carries, when the related-information capability is
    set, exactly two related-information entries, "Spelling matters" and
    "Particularly for names", each located in the document at the finding's
    own range; when the capability is not set it carries none. *)
Theorem findings_relatedInformation textDocument server :
  Forall (fun d =>
            relatedInformation d
            = if hasDiagnosticRelatedInformationCapability server
              then Some [ {| location := {| location_uri := uri textDocument;
                                            location_range := range d |};
                             related_message := lit "Spelling matters" |};
                          {| location := {| location_uri := uri textDocument;
                                            location_range := range d |};
                             related_message := lit "Particularly for names" |} ]
              else None)
         (findings textDocument server).
Proof.
  rewrite findings_runs. apply Forall_fmap, Forall_forall. intros run _.
  unfold findingFor, diagnosticFor. simpl.
  destruct (hasDiagnosticRelatedInformationCapability server); reflexivity.
Qed.

Example findings_relatedInformation_scenario_A :
  let textDocument := singleLineDocument (lit "file:///policy.sentinel") (lit "let X = FOO") in
  map relatedInformation
      (findings textDocument (serverWith false true (fun _ => defaultSettings) []))
  = [Some [ {| location := {| location_uri := lit "file:///policy.sentinel";
                              location_range :=
                                {| start := {| line := 0; character := 8 |};
                                   end_ := {| line := 0; character := 11 |} |} |};
               related_message := lit "Spelling matters" |};
            {| location := {| location_uri := lit "file:///policy.sentinel";
                              location_range :=
                                {| start := {| line := 0; character := 8 |};
                                   end_ := {| line := 0; character := 11 |} |} |};
               related_message := lit "Particularly for names" |} ]]
  /\ map relatedInformation
         (findings textDocument (serverWith false false (fun _ => defaultSettings) []))
     = [None].
Proof. split; vm_compute; reflexivity. Qed.

(** ** Pull diagnostics *)

(** C7. A diagnostics pull for a uri that is not in the document store is
    answered with the full report without items, and the server state is left
    as it was; for a uri in the store the answer is the full report whose
    items are the findings of that document. *)
Theorem onDiagnostics_report server params_uri :
  (documents server !! params_uri = None ->
   onDiagnostics params_uri server
   = ({| report_kind := Full; items := [] |}, server))
  /\ (forall document,
        documents server !! params_uri = Some document ->
        (onDiagnostics params_uri server).1
        = {| report_kind := Full; items := findings document server |}).
Proof.
  unfold onDiagnostics, findings, get, mbind, handler_bind, mret, handler_ret.
  split.
  - intros ->. reflexivity.
  - intros document ->.
    destruct (validateTextDocument document server). reflexivity.
Qed.

Lemma onDiagnostics_report_witness :
  let document := singleLineDocument (lit "file:///policy.sentinel") (lit "let X = FOO") in
  let server := serverWith false false (fun _ => defaultSettings) [document] in
  onDiagnostics (lit "file:///other.sentinel") server
  = ({| report_kind := Full; items := [] |}, server)
  /\ (onDiagnostics (lit "file:///policy.sentinel") server).1
     = {| report_kind := Full; items := findings document server |}.
Proof.
  intros document server. split.
  - apply (proj1 (onDiagnostics_report server (lit "file:///other.sentinel"))).
    vm_compute. reflexivity.
  - apply (proj2 (onDiagnostics_report server (lit "file:///policy.sentinel"))).
    vm_compute. reflexivity.
Defined.

(** ** The settings cache *)

(** A cached promise is reused, and nothing is asked of the host. *)
Lemma getDocumentSettings_hit server resource cached :
  hasConfigurationCapability server = true ->
  documentSettings server !! resource = Some cached ->
  getDocumentSettings resource server = (cached, server).
Proof.
  intros Hcap Hhit.
  unfold getDocumentSettings, get, mbind, handler_bind, mret, handler_ret.
  simpl. rewrite Hcap. simpl. now rewrite Hhit.
Qed.

(** C6. With per-scope configuration supported, a configuration-change
    notification empties the per-document settings cache.  The next
    [getDocumentSettings] for any uri, cached before or not, therefore finds
    no entry: it sends a configuration request scoped to that uri to the host,
    returns the host's answer to it and caches that answer. *)
Theorem onDidChangeConfiguration_clears_cache server change resource :
  hasConfigurationCapability server = true ->
  let server1 := (onDidChangeConfiguration change server).2 in
  let request := {| scopeUri := resource; section := lit "languageServerExample" |} in
  let fresh := Settled (hostConfiguration server1 request) in
  documentSettings server1 = ∅
  /\ documentSettings server1 !! resource = None
  /\ (getDocumentSettings resource server1).1 = fresh
  /\ outbox (getDocumentSettings resource server1).2
     = outbox server1 ++ [WorkspaceConfiguration request]
  /\ documentSettings (getDocumentSettings resource server1).2
     = {[ resource := fresh ]}.
Proof.
  intros Hcap.
  unfold onDidChangeConfiguration, getDocumentSettings, getConfiguration, get,
    send, set_documentSettings, mbind, handler_bind, mret, handler_ret.
  rewrite Hcap. simpl. rewrite Hcap. simpl. rewrite lookup_empty. simpl.
  repeat split.
Qed.

Lemma onDidChangeConfiguration_clears_cache_witness :
  let resource := lit "file:///policy.sentinel" in
  let server :=
    {| hasConfigurationCapability := true;
       hasWorkspaceFolderCapability := false;
       hasDiagnosticRelatedInformationCapability := false;
       globalSettings := defaultSettings;
       documentSettings := {[ resource := Settled {| maxNumberOfProblems := 5 |} ]};
       documents := ∅;
       hostConfiguration := fun _ => {| maxNumberOfProblems := 7 |};
       outbox := [] |} in
  let server1 := (onDidChangeConfiguration {| languageServerExample := None |} server).2 in
  (getDocumentSettings resource server).1 = Settled {| maxNumberOfProblems := 5 |}
  /\ outbox (getDocumentSettings resource server).2 = []
  /\ (getDocumentSettings resource server1).1 = Settled {| maxNumberOfProblems := 7 |}
  /\ outbox (getDocumentSettings resource server1).2
     = [DiagnosticsRefresh;
        WorkspaceConfiguration {| scopeUri := resource;
                                  section := lit "languageServerExample" |}].
Proof.
  intros resource server server1.
  destruct (onDidChangeConfiguration_clears_cache server
              {| languageServerExample := None |} resource eq_refl)
    as (_ & _ & Hfresh & Hout & _).
  split; [vm_compute; reflexivity|]. split; [vm_compute; reflexivity|].
  split; [exact Hfresh|exact Hout].
Defined.

(** ** The pattern [/<namespace>\.\s*$/] *)

Section Trigger.

Implicit Types (line text : JSString) (name : string).

(** Literal characters match exactly the same characters of the text. *)
Lemma matchAt_literal (cs : JSString) r text i :
  matchAt (map Chr cs ++ r) text i
  = if decide (take (length cs) (drop i text) = cs)
    then matchAt r text (i + length cs)
    else None.
Proof.
  revert i. induction cs as [|c cs IH]; intros i; simpl.
  - rewrite Nat.add_0_r. reflexivity.
  - destruct (text !! i) as [c'|] eqn:Hi.
    + rewrite (drop_S _ _ _ Hi). simpl.
      destruct (N.eqb_spec c c') as [<-|Hne].
      * rewrite IH. replace (i + S (length cs)) with (S i + length cs) by lia.
        destruct (decide (take (length cs) (drop (S i) text) = cs)) as [->|Hd].
        -- rewrite decide_True; reflexivity.
        -- rewrite decide_False; [reflexivity|congruence].
      * rewrite decide_False; [reflexivity|congruence].
    + apply lookup_ge_None in Hi. rewrite drop_ge by lia. reflexivity.
Qed.

Lemma namespaceDot_eq name :
  namespaceDot name = map Chr (lit name ++ lit ".") ++ [Rep isSpace 0; Eoi].
Proof. unfold namespaceDot. rewrite map_app, <- app_assoc. reflexivity. Qed.

(** [\s*$] matches at [i] exactly when only whitespace follows [i]. *)
Lemma matchAt_spaces_end text i e :
  matchAt [Rep isSpace 0; Eoi] text i = Some e ->
  i <= length text /\ forallb isSpace (drop i text) = true.
Proof.
  simpl. intros (n & [_ Hn] & Hk)%backtrack_Some.
  destruct (Nat.eqb_spec (i + n) (length text)) as [Hlen|]; [|discriminate].
  split; [lia|].
  rewrite <- (take_ge (drop i text) n) by (rewrite length_drop; lia).
  apply runLength_take, Hn.
Qed.

Lemma matchAt_spaces_end_complete text i :
  i <= length text -> forallb isSpace (drop i text) = true ->
  matchAt [Rep isSpace 0; Eoi] text i = Some (length text).
Proof.
  intros Hi Hsp. simpl.
  assert (runLength isSpace (drop i text) = length text - i) as ->.
  { apply Nat.le_antisymm.
    - rewrite <- (length_drop text i). apply runLength_le.
    - rewrite <- (length_drop text i). apply runLength_ge; [lia|].
      now rewrite take_ge by lia. }
  apply backtrack_first; [lia|].
  replace (i + (length text - i)) with (length text) by lia.
  now rewrite Nat.eqb_refl.
Qed.

Lemma search_found r text i fuel j e :
  i <= j < i + fuel -> matchAt r text j = Some e ->
  search r text i fuel <> None.
Proof.
  intros Hj He Hs. rewrite (search_None _ _ _ _ Hs j Hj) in He. discriminate.
Qed.

(** The trigger pattern says what the specification says. *)
Lemma test_namespaceDot name line :
  test (namespaceDot name) line = true <-> endsWithNamespace name line.
Proof.
  unfold test, endsWithNamespace. rewrite namespaceDot_eq. split.
  - destruct (search _ _ _ _) as [[j e]|] eqn:Hs; [intros _|discriminate].
    destruct (search_Some _ _ _ _ _ _ Hs) as (_ & He & _).
    rewrite matchAt_literal in He.
    destruct (decide _) as [Hlit|]; [|discriminate].
    apply matchAt_spaces_end in He as [_ Hsp].
    exists (take j line), (drop (j + length (lit name ++ lit ".")) line).
    split; [|exact Hsp].
    remember (length (lit name ++ lit ".")) as k.
    rewrite <- drop_drop, (app_assoc (lit name)), <- Hlit, take_drop, take_drop.
    reflexivity.
  - intros (before & spaces & -> & Hsp).
    destruct (search _ _ _ _) eqn:Hs; [reflexivity|exfalso].
    eapply (search_found _ _ 0 _ (length before)); [| |exact Hs].
    + rewrite !length_app. lia.
    + rewrite matchAt_literal, drop_app_length, app_assoc, take_app_length.
      rewrite decide_True by reflexivity.
      apply matchAt_spaces_end_complete.
      * rewrite !length_app. lia.
      * rewrite app_assoc, <- length_app, drop_app_length. exact Hsp.
Qed.

End Trigger.

(** ** The completion classifier *)

Section Classifier.

Implicit Types (line : JSString) (name : string).

Lemma not_endsWithNamespace name line :
  test (namespaceDot name) line = false -> ~ endsWithNamespace name line.
Proof. intros Ht H%test_namespaceDot. congruence. Qed.

Lemma forallb_rev {A} (f : A -> bool) (l : list A) :
  forallb f l = true -> forallb f (rev l) = true.
Proof.
  rewrite !forallb_forall. intros H x Hx. apply H, in_rev, Hx.
Qed.

(** Whitespace, then a dot: the dot is where the whitespace stops. *)
Lemma spaces_dot_unique (u1 u2 v1 v2 : JSString) :
  forallb isSpace u1 = true -> forallb isSpace u2 = true ->
  u1 ++ 46%N :: v1 = u2 ++ 46%N :: v2 -> u1 = u2 /\ v1 = v2.
Proof.
  revert u2. induction u1 as [|c1 u1 IH]; intros [|c2 u2]; simpl.
  - intros _ _ [= ->]. auto.
  - intros _ [Hc _]%andb_prop [= <- _]. discriminate Hc.
  - intros [Hc _]%andb_prop _ [= -> _]. discriminate Hc.
  - intros [_ H1]%andb_prop [_ H2]%andb_prop [= -> Heq].
    destruct (IH _ H1 H2 Heq) as [-> ->]. auto.
Qed.

(** Two namespaces can trigger on one line only if the name of one is the
    end of the name of the other. *)
Lemma endsWithNamespace_overlap name name' line :
  endsWithNamespace name line -> endsWithNamespace name' line ->
  exists a b, rev (lit name) ++ a = rev (lit name') ++ b.
Proof.
  intros (b1 & s1 & -> & Hs1) (b2 & s2 & Heq & Hs2).
  apply (f_equal (@rev N)) in Heq. rewrite !rev_app_distr in Heq. simpl in Heq.
  rewrite <- !app_assoc in Heq. simpl in Heq.
  apply spaces_dot_unique in Heq as [_ Heq]; [|now apply forallb_rev..].
  eauto.
Qed.

Ltac classify H :=
  unfold completionsFor;
  repeat match goal with
    | |- context [test (namespaceDot ?n) ?l] =>
        first
          [ rewrite (proj2 (test_namespaceDot n l) H)
          | let Ht := fresh "Ht" in
            destruct (test (namespaceDot n) l) eqn:Ht;
            [ exfalso; apply test_namespaceDot in Ht;
              destruct (endsWithNamespace_overlap _ _ _ H Ht) as (? & ? & Heq);
              vm_compute in Heq; congruence
            | ] ]
    end.

(** The catalog of a namespace is returned whatever precedes its name. *)
Lemma completionsFor_namespace name catalog line :
  In (name, catalog) namespaceCatalogs ->
  endsWithNamespace name line ->
  completionsFor line = catalog.
Proof.
  intros Hin H. simpl in Hin.
  repeat (destruct Hin as [[= <- <-]|Hin]; [classify H; reflexivity|]).
  destruct Hin.
Qed.

Lemma completionsFor_cases line :
  completionsFor line = defaultCatalog
  \/ exists name, In (name, completionsFor line) namespaceCatalogs.
Proof.
  unfold completionsFor, namespaceCatalogs.
  repeat match goal with
    | |- context [test (namespaceDot ?n) ?l] =>
        destruct (test (namespaceDot n) l);
        [right; eexists; simpl; eauto 10|]
    end.
  now left.
Qed.

(** The handler classifies the text of the line up to the cursor. *)
Lemma onCompletion_classifies server params document :
  documents server !! textDocument_uri params = Some document ->
  onCompletion params server
  = (completionsFor
       (getText document
          (Some {| start := {| LSP.line := LSP.line (position params); character := 0 |};
                   end_ := position params |})),
     server).
Proof.
  intros Hdoc. unfold onCompletion, get, mbind, handler_bind, mret, handler_ret.
  simpl. now rewrite Hdoc.
Qed.

End Classifier.

(** C3. A line matches [/strings\.\s*$/] exactly when it ends with
    "strings." followed only by whitespace, whatever comes before on the line,
    and every such line gets exactly the seven items of the strings catalog,
    in their order: has_prefix(), has_suffix(), join(), trim_prefix(),
    to_lower(), to_upper(), split(). *)
Theorem completionsFor_strings line :
  (test (namespaceDot "strings") line = true <-> endsWithNamespace "strings" line)
  /\ (test (namespaceDot "strings") line = true ->
      completionsFor line
      = [ item "has_prefix()" Method 1;
          item "has_suffix()" Method 2;
          item "join()" Method 3;
          item "trim_prefix()" Method 4;
          item "to_lower()" Method 5;
          item "to_upper()" Method 6;
          item "split()" Method 7 ]).
Proof.
  split; [apply test_namespaceDot|].
  intros H%test_namespaceDot.
  apply (completionsFor_namespace "strings"); [simpl; auto|exact H].
Qed.

Lemma completionsFor_strings_witness :
  endsWithNamespace "strings" (lit "foo.strings. ")
  /\ map label (completionsFor (lit "foo.strings. "))
     = map lit [ "has_prefix()"; "has_suffix()"; "join()"; "trim_prefix()";
                 "to_lower()"; "to_upper()"; "split()" ]%string.
Proof.
  destruct (completionsFor_strings (lit "foo.strings. ")) as [Hiff Hcat].
  split.
  - apply Hiff. reflexivity.
  - rewrite Hcat; reflexivity.
Defined.

(** C4. A line that ends with none of the namespace triggers gets the
    default catalog.  That catalog has items labelled import, for, if and
    return, and none of its labels is a label of a namespace catalog; in
    particular it has no has_prefix(). *)
Theorem completionsFor_default line :
  (forall name, In name (map fst namespaceCatalogs) -> ~ endsWithNamespace name line) ->
  completionsFor line = defaultCatalog
  /\ Forall (fun l => lit l ∈ map label defaultCatalog)
            [ "import"; "for"; "if"; "return" ]%string
  /\ Forall (fun catalog =>
               Forall (fun it => label it ∉ map label defaultCatalog) catalog.2)
            namespaceCatalogs
  /\ (lit "has_prefix()" ∉ map label defaultCatalog).
Proof.
  intros Hnone. split; [|split; [|split]].
  - unfold completionsFor.
    repeat match goal with
      | |- context [test (namespaceDot ?n) ?l] =>
          let Ht := fresh "Ht" in
          destruct (test (namespaceDot n) l) eqn:Ht;
          [ exfalso; apply test_namespaceDot in Ht;
            apply (Hnone n); [simpl; auto 10|exact Ht]
          | ]
      end.
    reflexivity.
  - apply (bool_decide_unpack _). vm_compute. exact I.
  - apply (bool_decide_unpack _). vm_compute. exact I.
  - apply (bool_decide_unpack _). vm_compute. exact I.
Qed.

Lemma completionsFor_default_witness :
  completionsFor (lit "x = ") = defaultCatalog.
Proof.
  apply (completionsFor_default (lit "x = ")).
  intros name Hin. simpl in Hin.
  repeat (destruct Hin as [<-|Hin]; [apply not_endsWithNamespace; reflexivity|]).
  destruct Hin.
Defined.

(** C10. The trigger patterns are anchored on the right only.  Whatever
    precedes the name of a namespace on the line, in particular further
    identifier characters as in "ajson." or "myhttp.", a line ending with the
    name, a dot and optional whitespace gets the catalog of that namespace,
    which is not the default catalog. *)
Theorem completionsFor_suffix name catalog before spaces :
  In (name, catalog) namespaceCatalogs ->
  forallb isSpace spaces = true ->
  completionsFor (before ++ lit name ++ lit "." ++ spaces) = catalog
  /\ catalog <> defaultCatalog.
Proof.
  intros Hin Hsp. split.
  - apply (completionsFor_namespace name); [exact Hin|].
    exists before, spaces. auto.
  - simpl in Hin.
    repeat (destruct Hin as [[= <- <-]|Hin]; [discriminate|]).
    destruct Hin.
Qed.

Lemma completionsFor_suffix_witness :
  completionsFor (lit "ajson.") = jsonCatalog
  /\ completionsFor (lit "x = myhttp. ") = httpCatalog.
Proof.
  split.
  - apply (completionsFor_suffix "json" jsonCatalog (lit "a") []);
      [simpl; auto|reflexivity].
  - apply (completionsFor_suffix "http" httpCatalog (lit "x = my") (lit " "));
      [simpl; auto|reflexivity].
Defined.

(** ** Completion resolve *)

(** C5. Resolving attaches the detail and the documentation text to an item
    exactly when its id is 1, and returns every other item as it came.  The
    item import with id 1 comes back with both fields filled, the item for
    with id 2 comes back unchanged, and in the default catalog the one item
    with id 1 is import. *)
Theorem onCompletionResolve_by_id :
  (forall it, data it = 1%Z ->
     onCompletionResolve it
     = {| label := label it; kind := kind it; data := data it;
          detail := Some (lit "Import plugin or standard library");
          documentation := Some (lit "Import keyword allow us to import libraries") |})
  /\ (forall it, data it <> 1%Z -> onCompletionResolve it = it)
  /\ onCompletionResolve (item "import" Keyword 1)
     = {| label := lit "import"; kind := Keyword; data := 1;
          detail := Some (lit "Import plugin or standard library");
          documentation := Some (lit "Import keyword allow us to import libraries") |}
  /\ onCompletionResolve (item "for" Keyword 2) = item "for" Keyword 2
  /\ Forall (fun it => data it = 1%Z <-> label it = lit "import") defaultCatalog.
Proof.
  split; [|split; [|split; [|split]]].
  - intros it H. unfold onCompletionResolve. now rewrite H.
  - intros it H. unfold onCompletionResolve.
    destruct (Z.eqb_spec (data it) 1); [contradiction|reflexivity].
  - reflexivity.
  - reflexivity.
  - unfold defaultCatalog.
    repeat (constructor; [simpl; split; intros; (reflexivity || discriminate)|]).
    constructor.
Qed.

Lemma onCompletionResolve_by_id_witness :
  onCompletionResolve (item "import" Keyword 1) = withImportDetail (item "import" Keyword 1)
  /\ onCompletionResolve (item "for" Keyword 2) = item "for" Keyword 2.
Proof.
  split.
  - apply (proj1 onCompletionResolve_by_id (item "import" Keyword 1)). reflexivity.
  - apply (proj1 (proj2 onCompletionResolve_by_id) (item "for" Keyword 2)).
    simpl. discriminate.
Defined.

(** C9. Whenever the classifier returns a namespace catalog, the first item
    of what it returns has id 1.  Resolving looks at the id only, so that
    item, whatever its label and kind, comes back with the detail
    "Import plugin or standard library" and the documentation of the import
    keyword, hence changed; so do has_prefix() of the strings catalog and
    marshal() of the json catalog. *)
Theorem namespace_first_item_resolved_as_import :
  (forall line,
     completionsFor line <> defaultCatalog ->
     exists first rest,
       completionsFor line = first :: rest
       /\ data first = 1%Z
       /\ onCompletionResolve first = withImportDetail first
       /\ onCompletionResolve first <> first)
  /\ (forall l k,
        onCompletionResolve (item l k 1)
        = {| label := lit l; kind := k; data := 1;
             detail := Some (lit "Import plugin or standard library");
             documentation := Some (lit "Import keyword allow us to import libraries") |})
  /\ Forall (fun catalog =>
               exists first rest,
                 catalog.2 = first :: rest
                 /\ data first = 1%Z
                 /\ detail (onCompletionResolve first)
                    = Some (lit "Import plugin or standard library")
                 /\ documentation (onCompletionResolve first)
                    = Some (lit "Import keyword allow us to import libraries"))
            namespaceCatalogs
  /\ head stringsCatalog = Some (item "has_prefix()" Method 1)
  /\ head jsonCatalog = Some (item "marshal()" Method 1).
Proof.
  split; [|split; [|split; [|split]]].
  - intros line Hns.
    destruct (completionsFor_cases line) as [?|[name Hin]]; [contradiction|].
    revert Hin. generalize (completionsFor line). intros catalog Hin.
    simpl in Hin.
    repeat (destruct Hin as [[= <- <-]|Hin];
            [do 2 eexists; split; [reflexivity|];
             split; [reflexivity|]; split; [reflexivity|]; discriminate|]).
    destruct Hin.
  - reflexivity.
  - unfold namespaceCatalogs.
    repeat (constructor; [do 2 eexists; repeat split|]). constructor.
  - reflexivity.
  - reflexivity.
Qed.

Lemma namespace_first_item_resolved_as_import_witness :
  exists first rest,
    completionsFor (lit "x = json.") = first :: rest
    /\ label first = lit "marshal()"
    /\ detail (onCompletionResolve first)
       = Some (lit "Import plugin or standard library").
Proof.
  destruct (proj1 namespace_first_item_resolved_as_import (lit "x = json."))
    as (first & rest & Heq & _ & Hres & _); [vm_compute; discriminate|].
  exists first, rest. split; [exact Heq|].
  assert (completionsFor (lit "x = json.") = jsonCatalog) as Hjson by reflexivity.
  rewrite Hjson in Heq. injection Heq as <- _. split; reflexivity.
Defined.

(** ** [server.ts] *)

(** The handler of [server.ts] has one catalog for every position: it lists
    has_prefix() and has_suffix() among the keywords and has no return. *)
Remark serverTs_catalog :
  (lit "has_prefix()" ∈ map label ServerTs.catalog)
  /\ (lit "has_suffix()" ∈ map label ServerTs.catalog)
  /\ (lit "return" ∉ map label ServerTs.catalog)
  /\ Forall (fun it => data it = 1%Z <-> label it = lit "import") ServerTs.catalog.
Proof.
  split; [|split; [|split]]; apply (bool_decide_unpack _); vm_compute; exact I.
Qed.

(** ** The scenarios of the specification, evaluated *)

Example exec_scenario_A :
  exec uppercaseWord (lit "let X = FOO") 0
  = (Some {| index := 8; m0 := lit "FOO" |}, 11).
Proof. reflexivity. Qed.

Example onCompletion_scenario_C :
  let document := singleLineDocument (lit "file:///policy.sentinel") (lit "foo.strings. ") in
  let server := serverWith false false (fun _ => defaultSettings) [document] in
  (onCompletion {| textDocument_uri := lit "file:///policy.sentinel";
                   position := {| line := 0; character := 13 |} |} server).1
  = stringsCatalog
  /\ (onCompletion {| textDocument_uri := lit "file:///policy.sentinel";
                      position := {| line := 0; character := 3 |} |} server).1
     = defaultCatalog
  /\ (onCompletion {| textDocument_uri := lit "file:///other.sentinel";
                      position := {| line := 0; character := 13 |} |} server).1
     = [].
Proof. repeat split; vm_compute; reflexivity. Qed.

Example test_scenario_C :
  test (namespaceDot "strings") (lit "foo.strings. ") = true
  /\ test (namespaceDot "strings") (lit "strings") = false
  /\ test (namespaceDot "strings") (lit "strings.x") = false.
Proof. repeat split. Qed.

(** * Further properties of the handlers *)

(** ** What each handler does to the state *)

Section Effects.

Implicit Types (s server : Server) (resource : JSString).

(** The three ways [getDocumentSettings] can go. *)
Lemma getDocumentSettings_cases resource s :
  (hasConfigurationCapability s = false
   /\ getDocumentSettings resource s = (Settled (globalSettings s), s))
  \/ (hasConfigurationCapability s = true
      /\ exists cached, documentSettings s !! resource = Some cached
                        /\ getDocumentSettings resource s = (cached, s))
  \/ (hasConfigurationCapability s = true
      /\ documentSettings s !! resource = None
      /\ getDocumentSettings resource s
         = (Settled (hostConfiguration s {| scopeUri := resource;
                                           section := lit "languageServerExample" |}),
            {| hasConfigurationCapability := hasConfigurationCapability s;
               hasWorkspaceFolderCapability := hasWorkspaceFolderCapability s;
               hasDiagnosticRelatedInformationCapability :=
                 hasDiagnosticRelatedInformationCapability s;
               globalSettings := globalSettings s;
               documentSettings :=
                 <[resource := Settled (hostConfiguration s
                                          {| scopeUri := resource;
                                             section := lit "languageServerExample" |})]>
                   (documentSettings s);
               documents := documents s;
               hostConfiguration := hostConfiguration s;
               outbox := outbox s ++ [configurationRequest resource] |})).
Proof.
  unfold getDocumentSettings, getConfiguration, get, send, set_documentSettings,
    mbind, handler_bind, mret, handler_ret. simpl.
  destruct (hasConfigurationCapability s) eqn:Hcap; simpl; [|left; auto].
  right. destruct (documentSettings s !! resource) as [cached|] eqn:Hc; simpl.
  - left. split; [reflexivity|]. exists cached. auto.
  - right. rewrite Hcap. auto.
Qed.

Lemma onDidChangeContent_state document s :
  (onDidChangeContent document s).2 = (getDocumentSettings (uri document) s).2.
Proof.
  unfold onDidChangeContent, mbind, handler_bind at 1.
  rewrite validateTextDocument_eq. reflexivity.
Qed.

Lemma onDiagnostics_state params_uri s :
  (onDiagnostics params_uri s).2
  = match documents s !! params_uri with
    | Some document => (getDocumentSettings (uri document) s).2
    | None => s
    end.
Proof.
  unfold onDiagnostics, get, mbind, handler_bind at 1. simpl.
  destruct (documents s !! params_uri) as [document|]; [|reflexivity].
  unfold mbind, handler_bind. rewrite validateTextDocument_eq. reflexivity.
Qed.

Lemma onCompletion_state params s : (onCompletion params s).2 = s.
Proof.
  unfold onCompletion, get, mbind, handler_bind, mret, handler_ret. simpl.
  destruct (documents s !! textDocument_uri params); reflexivity.
Qed.

(** One step of a session is a configuration change, a close, a settings
    lookup, a change of the environment, or nothing. *)
Lemma handle_cases e s :
  (exists change, e = DidChangeConfiguration change)
  \/ (exists document, e = DidClose document)
  \/ (isConfigurationChange e = false
      /\ (forall resource, invalidates resource e = false)
      /\ (handle e s = s
          \/ (exists resource, handle e s = (getDocumentSettings resource s).2)
          \/ (exists docs host, handle e s = set_environment docs host s))).
Proof.
  destruct e as [change|document|document|params_uri|params|docs|host]; simpl.
  - left. eauto.
  - right. left. eauto.
  - right. right. repeat split. right. left.
    rewrite onDidChangeContent_state. eauto.
  - right. right. repeat split. rewrite onDiagnostics_state.
    destruct (documents s !! params_uri); eauto.
  - right. right. repeat split. left. apply onCompletion_state.
  - right. right. repeat split. eauto.
  - right. right. repeat split. eauto.
Qed.

Lemma run_cons e events s : run (e :: events) s = run events (handle e s).
Proof. reflexivity. Qed.

End Effects.

(** ** Settings: the global path, the cache and its invalidation *)

Section SettingsCache.

Implicit Types (s : Server) (resource : JSString).



Lemma getDocumentSettings_again resource s :
  getDocumentSettings resource (getDocumentSettings resource s).2
  = getDocumentSettings resource s.
Proof.
  destruct (getDocumentSettings_cases resource s)
    as [[Hcap Heq]|[(Hcap & cached & Hc & Heq)|(Hcap & Hmiss & Heq)]];
    rewrite Heq; simpl; try (rewrite Heq; reflexivity).
  match goal with |- getDocumentSettings _ ?s1 = _ =>
    destruct (getDocumentSettings_cases resource s1)
      as [[Hcap1 _]|[(_ & cached & Hc & Heq1)|(_ & Hmiss1 & _)]]
  end; simpl in *.
  - congruence.
  - rewrite lookup_insert_eq in Hc. injection Hc as <-. exact Heq1.
  - rewrite lookup_insert_eq in Hmiss1. discriminate.
Qed.

(** X2. Looking up the settings of a uri a second time returns the same
    promise as the first time and changes nothing: the first lookup sent at
    most one configuration request, the second sends none. *)
Theorem getDocumentSettings_shared resource s :
  let first := getDocumentSettings resource s in
  getDocumentSettings resource first.2 = first
  /\ (outbox first.2 = outbox s
      \/ outbox first.2 = outbox s ++ [configurationRequest resource]).
Proof.
  simpl. split; [apply getDocumentSettings_again|].
  destruct (getDocumentSettings_cases resource s)
    as [[_ Heq]|[(_ & cached & _ & Heq)|(_ & _ & Heq)]]; rewrite Heq; simpl; auto.
Qed.

(** X3. A settings lookup never removes or replaces a cached entry, whichever
    uri is looked up. *)
Theorem getDocumentSettings_keeps_cache resource other cached s :
  documentSettings s !! other = Some cached ->
  documentSettings (getDocumentSettings resource s).2 !! other = Some cached.
Proof.
  intros Hother.
  destruct (getDocumentSettings_cases resource s)
    as [[_ Heq]|[(_ & c & _ & Heq)|(_ & Hmiss & Heq)]]; rewrite Heq; simpl; auto.
  rewrite lookup_insert_ne; [assumption|]. intros <-. congruence.
Qed.

Lemma getDocumentSettings_keeps_cache_witness :
  let a := lit "file:///a.sentinel" in
  let b := lit "file:///b.sentinel" in
  let s := serverWith true false (fun _ => defaultSettings) [] in
  let s1 := (getDocumentSettings a s).2 in
  documentSettings (getDocumentSettings b s1).2 !! a = Some (Settled defaultSettings).
Proof.
  intros a b s s1.
  apply (getDocumentSettings_keeps_cache b a (Settled defaultSettings) s1).
  vm_compute. reflexivity.
Defined.

(** X4. Closing a document drops its cached settings and only them: the
    entries of the other uris stay, nothing is sent and the global settings
    are untouched.  With per-scope configuration the next lookup for the
    closed document asks the host again. *)
Theorem onDidClose_invalidates document s :
  let s1 := (onDidClose document s).2 in
  documentSettings s1 !! uri document = None
  /\ (forall other, other <> uri document ->
        documentSettings s1 !! other = documentSettings s !! other)
  /\ outbox s1 = outbox s
  /\ globalSettings s1 = globalSettings s
  /\ (hasConfigurationCapability s = true ->
      (getDocumentSettings (uri document) s1).1
      = Settled (hostConfiguration s {| scopeUri := uri document;
                                        section := lit "languageServerExample" |})
      /\ outbox (getDocumentSettings (uri document) s1).2
         = outbox s ++ [configurationRequest (uri document)]).
Proof.
  intros s1.
  assert (documentSettings s1 = delete (uri document) (documentSettings s)
          /\ outbox s1 = outbox s /\ globalSettings s1 = globalSettings s
          /\ hasConfigurationCapability s1 = hasConfigurationCapability s
          /\ hostConfiguration s1 = hostConfiguration s) as (Hc & Ho & Hg & Hcap & Hh).
  { unfold s1, onDidClose, get, set_documentSettings, mbind, handler_bind.
    simpl. auto. }
  clearbody s1.
  split; [rewrite Hc; apply lookup_delete_eq|].
  split; [intros other Hne; rewrite Hc; apply lookup_delete_ne; congruence|].
  split; [assumption|]. split; [assumption|].
  intros Htrue.
  destruct (getDocumentSettings_cases (uri document) s1)
    as [[Hf _]|[(_ & c & Hhit & _)|(_ & _ & Heq)]].
  - congruence.
  - rewrite Hc, lookup_delete_eq in Hhit. discriminate.
  - rewrite Heq. simpl. rewrite Hh, Ho. auto.
Qed.

Lemma onDidClose_invalidates_witness :
  let document := singleLineDocument (lit "file:///policy.sentinel") (lit "AA") in
  let s := serverWith true false (fun _ => defaultSettings) [document] in
  let s1 := (validateTextDocument document s).2 in
  let s2 := (onDidClose document s1).2 in
  documentSettings s1 !! uri document = Some (Settled defaultSettings)
  /\ outbox (getDocumentSettings (uri document) s2).2
     = [configurationRequest (uri document); configurationRequest (uri document)].
Proof.
  intros document s s1 s2. split; [vm_compute; reflexivity|].
  destruct (onDidClose_invalidates document s1) as (_ & _ & _ & _ & Hnext).
  destruct (Hnext eq_refl) as [_ Hout].
  etransitivity; [exact Hout|]. vm_compute. reflexivity.
Defined.

(** X5. Validating an unchanged document a second time gives the same
    findings as the first time and leaves the state as the first validation
    left it. *)
Theorem validateTextDocument_idempotent document s :
  let first := validateTextDocument document s in
  validateTextDocument document first.2 = first.
Proof.
  simpl. rewrite !validateTextDocument_eq. simpl.
  unfold settingsFor. rewrite getDocumentSettings_again.
  destruct (getDocumentSettings_frame (uri document) s) as (_ & -> & _).
  reflexivity.
Qed.

End SettingsCache.

(** ** Sessions: what holds after any sequence of events *)

Section Sessions.

Implicit Types (s : Server) (resource : JSString) (e : Event).

Lemma onDidChangeConfiguration_state change s :
  (onDidChangeConfiguration change s).2
  = {| hasConfigurationCapability := hasConfigurationCapability s;
       hasWorkspaceFolderCapability := hasWorkspaceFolderCapability s;
       hasDiagnosticRelatedInformationCapability :=
         hasDiagnosticRelatedInformationCapability s;
       globalSettings :=
         if hasConfigurationCapability s then globalSettings s
         else default defaultSettings (languageServerExample change);
       documentSettings :=
         if hasConfigurationCapability s then ∅ else documentSettings s;
       documents := documents s;
       hostConfiguration := hostConfiguration s;
       outbox := outbox s ++ [DiagnosticsRefresh] |}.
Proof.
  unfold onDidChangeConfiguration, get, send, set_globalSettings,
    set_documentSettings, mbind, handler_bind. simpl.
  destruct (hasConfigurationCapability s) eqn:Hcap; simpl; rewrite ?Hcap; reflexivity.
Qed.

Lemma onDidClose_state document s :
  (onDidClose document s).2
  = {| hasConfigurationCapability := hasConfigurationCapability s;
       hasWorkspaceFolderCapability := hasWorkspaceFolderCapability s;
       hasDiagnosticRelatedInformationCapability :=
         hasDiagnosticRelatedInformationCapability s;
       globalSettings := globalSettings s;
       documentSettings := delete (uri document) (documentSettings s);
       documents := documents s;
       hostConfiguration := hostConfiguration s;
       outbox := outbox s |}.
Proof. reflexivity. Qed.

(** Split a step into its cases, with the new state spelled out. *)
Ltac step e s :=
  let Hstep := fresh "Hstep" in
  destruct (handle_cases e s)
    as [[change ->]|[[document ->]|(? & ? & [Hstep|[[r Hstep]|(docs & host & Hstep)]])]];
  [ unfold handle; rewrite onDidChangeConfiguration_state
  | unfold handle; rewrite onDidClose_state
  | rewrite Hstep
  | rewrite Hstep;
    let Heq := fresh "Heq" in
    destruct (getDocumentSettings_cases r s)
      as [[? Heq]|[(? & ? & ? & Heq)|(? & ? & Heq)]]; rewrite Heq
  | rewrite Hstep ].

Lemma handle_capabilities e s :
  hasConfigurationCapability (handle e s) = hasConfigurationCapability s
  /\ hasWorkspaceFolderCapability (handle e s) = hasWorkspaceFolderCapability s
  /\ hasDiagnosticRelatedInformationCapability (handle e s)
     = hasDiagnosticRelatedInformationCapability s.
Proof. step e s; simpl; auto. Qed.

(** X6. The three capability flags are fixed for the whole session: no
    sequence of notifications, requests and changes of the environment
    alters any of them. *)
Theorem run_capabilities events s :
  hasConfigurationCapability (run events s) = hasConfigurationCapability s
  /\ hasWorkspaceFolderCapability (run events s) = hasWorkspaceFolderCapability s
  /\ hasDiagnosticRelatedInformationCapability (run events s)
     = hasDiagnosticRelatedInformationCapability s.
Proof.
  revert s. induction events as [|e events IH]; intros s; [auto|].
  rewrite run_cons. destruct (IH (handle e s)) as (-> & -> & ->).
  apply handle_capabilities.
Qed.



(** X8. With per-scope configuration the global settings are never written:
    whatever a configuration change carries, after any session they are what
    they were. *)
Theorem run_keeps_globalSettings events s :
  hasConfigurationCapability s = true ->
  globalSettings (run events s) = globalSettings s.
Proof.
  revert s. induction events as [|e events IH]; intros s Hcap; [reflexivity|].
  rewrite run_cons, IH
    by (rewrite (proj1 (handle_capabilities e s)); exact Hcap).
  step e s; simpl; rewrite ?Hcap; reflexivity.
Qed.

Lemma run_keeps_globalSettings_witness :
  let s := serverWith true false (fun _ => defaultSettings) [] in
  globalSettings
    (run [DidChangeConfiguration
            {| languageServerExample := Some {| maxNumberOfProblems := 3 |} |}] s)
  = defaultSettings.
Proof.
  intros s.
  exact (run_keeps_globalSettings
           [DidChangeConfiguration
              {| languageServerExample := Some {| maxNumberOfProblems := 3 |} |}]
           s eq_refl).
Defined.

Lemma configurationRequest_inj resource other :
  configurationRequest resource = configurationRequest other -> resource = other.
Proof. intros [= ->]. reflexivity. Qed.

Lemma handle_keeps_cached e s resource cached :
  documentSettings s !! resource = Some cached ->
  invalidates resource e = false ->
  documentSettings (handle e s) !! resource = Some cached
  /\ exists sent, outbox (handle e s) = outbox s ++ sent
                  /\ configurationRequest resource ∉ sent.
Proof.
  intros Hcached Hkeep.
  assert (configurationRequest resource ∉ @nil Outgoing) as Hnil
    by apply not_elem_of_nil.
  step e s; simpl in *.
  - discriminate.
  - apply bool_decide_eq_false in Hkeep. split.
    + rewrite lookup_delete_ne; [assumption|congruence].
    + exists []. rewrite app_nil_r. auto.
  - split; [assumption|]. exists []. rewrite app_nil_r. auto.
  - split; [assumption|]. exists []. rewrite app_nil_r. auto.
  - split; [assumption|]. exists []. rewrite app_nil_r. auto.
  - assert (r <> resource) by congruence. split.
    + rewrite lookup_insert_ne; assumption.
    + exists [configurationRequest r]. split; [reflexivity|].
      intros Hin%list_elem_of_singleton%configurationRequest_inj. congruence.
  - split; [assumption|]. exists []. rewrite app_nil_r. auto.
Qed.

(** X9. Settings cached for a uri stay cached, and the host is not asked for
    them again, as long as no configuration change arrives and the document
    of that uri is not closed: whatever else happens in between, the entry is
    the same promise and no configuration request for the uri is sent. *)
Theorem run_keeps_cached events s resource cached :
  documentSettings s !! resource = Some cached ->
  Forall (fun e => invalidates resource e = false) events ->
  documentSettings (run events s) !! resource = Some cached
  /\ exists sent, outbox (run events s) = outbox s ++ sent
                  /\ configurationRequest resource ∉ sent.
Proof.
  revert s. induction events as [|e events IH]; intros s Hcached Hkeep.
  - split; [assumption|]. exists []. rewrite app_nil_r.
    split; [reflexivity|apply not_elem_of_nil].
  - apply Forall_cons in Hkeep as [He Hkeep]. rewrite run_cons.
    destruct (handle_keeps_cached e s resource cached Hcached He)
      as (Hc1 & sent1 & Ho1 & Hn1).
    destruct (IH _ Hc1 Hkeep) as (Hc & sent & Ho & Hn).
    split; [assumption|]. exists (sent1 ++ sent).
    rewrite Ho, Ho1, app_assoc. split; [reflexivity|].
    rewrite elem_of_app. tauto.
Qed.

Lemma run_keeps_cached_witness :
  let a := singleLineDocument (lit "file:///a.sentinel") (lit "AA") in
  let b := singleLineDocument (lit "file:///b.sentinel") (lit "BB") in
  let s := (validateTextDocument a (serverWith true false (fun _ => defaultSettings) [a; b])).2 in
  outbox (run [DidChangeContent a; DidChangeContent b; DidClose b; DiagnosticsPull (uri a)] s)
  = [configurationRequest (uri a); configurationRequest (uri b)]
  /\ documentSettings
       (run [DidChangeContent a; DidChangeContent b; DidClose b; DiagnosticsPull (uri a)] s)
     !! uri a = Some (Settled defaultSettings).
Proof.
  intros a b s. split; [vm_compute; reflexivity|].
  apply (run_keeps_cached
           [DidChangeContent a; DidChangeContent b; DidClose b; DiagnosticsPull (uri a)]
           s (uri a) (Settled defaultSettings)).
  - vm_compute. reflexivity.
  - repeat constructor.
Defined.

(** X10. With per-scope configuration, settings once cached are what every
    later lookup returns, even when the host's configuration has changed in
    between, until a configuration change arrives or the document is closed;
    such a lookup leaves the state alone. *)
Theorem run_cached_settings_stale events s resource cached :
  hasConfigurationCapability s = true ->
  documentSettings s !! resource = Some cached ->
  Forall (fun e => invalidates resource e = false) events ->
  getDocumentSettings resource (run events s) = (cached, run events s).
Proof.
  revert s. induction events as [|e events IH]; intros s Hcap Hcached Hkeep.
  - now apply getDocumentSettings_hit.
  - apply Forall_cons in Hkeep as [He Hkeep]. rewrite run_cons. apply IH.
    + rewrite (proj1 (handle_capabilities e s)). exact Hcap.
    + apply (handle_keeps_cached e s resource cached Hcached He).
    + exact Hkeep.
Qed.

Lemma run_cached_settings_stale_witness :
  let a := singleLineDocument (lit "file:///a.sentinel") (lit "AA BB CC") in
  let s := (validateTextDocument a (serverWith true false (fun _ => defaultSettings) [a])).2 in
  let s1 := run [HostChanged (fun _ => {| maxNumberOfProblems := 1 |});
                 DidChangeContent a] s in
  (getDocumentSettings (uri a) s1).1 = Settled defaultSettings
  /\ length (findings a s1) = 3
  /\ length (findings a (handle (DidChangeConfiguration
                                   {| languageServerExample := None |}) s1)) = 1.
Proof.
  intros a s s1. split; [|split; vm_compute; reflexivity].
  unfold s1.
  rewrite (run_cached_settings_stale
             [HostChanged (fun _ => {| maxNumberOfProblems := 1 |}); DidChangeContent a]
             s (uri a) (Settled defaultSettings));
    [reflexivity|reflexivity|vm_compute; reflexivity|repeat constructor].
Defined.

Lemma handle_cache_requested e s :
  (forall resource, is_Some (documentSettings s !! resource) ->
                    configurationRequest resource ∈ outbox s) ->
  forall resource, is_Some (documentSettings (handle e s) !! resource) ->
                   configurationRequest resource ∈ outbox (handle e s).
Proof.
  intros Hinv resource.
  step e s; simpl; intros Hsome; rewrite ?elem_of_app; auto.
  - destruct (hasConfigurationCapability s); auto.
    rewrite lookup_empty in Hsome. destruct Hsome; discriminate.
  - destruct (decide (uri document = resource)) as [<-|Hne].
    + rewrite lookup_delete_eq in Hsome. destruct Hsome; discriminate.
    + rewrite lookup_delete_ne in Hsome by assumption. auto.
  - destruct (decide (r = resource)) as [<-|Hne].
    + right. apply list_elem_of_singleton. reflexivity.
    + rewrite lookup_insert_ne in Hsome by assumption. auto.
Qed.

(** X11. In a session that starts from the initial state with any
    initialisation, every uri with an entry in the settings cache has had a
    configuration request for it sent to the host. *)
Theorem run_cache_requested capabilities host events resource :
  let s := run events (onInitialize capabilities (initialServer host)).2 in
  is_Some (documentSettings s !! resource) ->
  configurationRequest resource ∈ outbox s.
Proof.
  simpl. revert resource.
  assert (forall s, (forall resource, is_Some (documentSettings s !! resource) ->
                                      configurationRequest resource ∈ outbox s) ->
                    forall resource,
                      is_Some (documentSettings (run events s) !! resource) ->
                      configurationRequest resource ∈ outbox (run events s)) as Hrun.
  { induction events as [|e events IH]; intros s Hinv; [exact Hinv|].
    rewrite run_cons. apply IH, handle_cache_requested, Hinv. }
  apply Hrun. intros resource Hsome. simpl in Hsome.
  rewrite lookup_empty in Hsome. destruct Hsome; discriminate.
Qed.

Lemma run_cache_requested_witness :
  let a := singleLineDocument (lit "file:///a.sentinel") (lit "AA") in
  let capabilities :=
    {| Initialize.workspace :=
         Some {| Initialize.configuration := Some true;
                 Initialize.workspaceFolders := None |};
       Initialize.textDocument := None |} in
  configurationRequest (uri a)
  ∈ outbox (run [DidChangeContent a]
              (onInitialize capabilities (initialServer (fun _ => defaultSettings))).2).
Proof.
  intros a capabilities.
  apply (run_cache_requested capabilities (fun _ => defaultSettings)
           [DidChangeContent a] (uri a)).
  vm_compute. eexists. reflexivity.
Defined.

End Sessions.

(** ** Initialisation *)

(** X12. [onInitialize] sets each capability flag exactly when the client
    declared that capability as true, an absent object or property counting as
    not declared.  Its answer offers workspace folders exactly when the
    workspace-folder flag is set, and always offers incremental
    synchronisation, completion with resolve and the trigger character ".",
    and pull diagnostics without inter-file dependencies.  Settings, cache,
    document store and outbox are left alone. *)
Theorem onInitialize_capabilities capabilities s :
  let answer := (onInitialize capabilities s).1 in
  let s1 := (onInitialize capabilities s).2 in
  (hasConfigurationCapability s1 = true <->
   exists w, Initialize.workspace capabilities = Some w
             /\ Initialize.configuration w = Some true)
  /\ (hasWorkspaceFolderCapability s1 = true <->
      exists w, Initialize.workspace capabilities = Some w
                /\ Initialize.workspaceFolders w = Some true)
  /\ (hasDiagnosticRelatedInformationCapability s1 = true <->
      exists t p, Initialize.textDocument capabilities = Some t
                  /\ Initialize.publishDiagnostics t = Some p
                  /\ Initialize.relatedInformation p = Some true)
  /\ Initialize.workspace_workspaceFolders answer
     = (if hasWorkspaceFolderCapability s1
        then Some {| Initialize.supported := true |} else None)
  /\ Initialize.textDocumentSync answer = Initialize.Incremental
  /\ Initialize.completionProvider answer
     = {| Initialize.resolveProvider := true;
          Initialize.triggerCharacters := [lit "."] |}
  /\ Initialize.diagnosticProvider answer
     = {| Initialize.interFileDependencies := false;
          Initialize.workspaceDiagnostics := false |}
  /\ globalSettings s1 = globalSettings s
  /\ documentSettings s1 = documentSettings s
  /\ documents s1 = documents s
  /\ outbox s1 = outbox s.
Proof.
  simpl. repeat split; try reflexivity.
  - unfold Initialize.andThen, Initialize.truthy.
    destruct (Initialize.workspace capabilities) as [w|]; [|discriminate].
    destruct (Initialize.configuration w) as [[|]|] eqn:Hw; try discriminate.
    intros _. exists w. auto.
  - intros (w & -> & Hw). simpl. now rewrite Hw.
  - unfold Initialize.andThen, Initialize.truthy.
    destruct (Initialize.workspace capabilities) as [w|]; [|discriminate].
    destruct (Initialize.workspaceFolders w) as [[|]|] eqn:Hw; try discriminate.
    intros _. exists w. auto.
  - intros (w & -> & Hw). simpl. now rewrite Hw.
  - unfold Initialize.andThen, Initialize.truthy.
    destruct (Initialize.textDocument capabilities) as [t|]; [|discriminate].
    destruct (Initialize.publishDiagnostics t) as [p|] eqn:Ht; [|discriminate].
    destruct (Initialize.relatedInformation p) as [[|]|] eqn:Hp; try discriminate.
    intros _. exists t, p. auto.
  - intros (t & p & -> & Ht & Hp). simpl. rewrite Ht. simpl. now rewrite Hp.
Qed.

Lemma onInitialize_capabilities_witness :
  let capabilities :=
    {| Initialize.workspace :=
         Some {| Initialize.configuration := Some true;
                 Initialize.workspaceFolders := None |};
       Initialize.textDocument := None |} in
  let s1 := (onInitialize capabilities (initialServer (fun _ => defaultSettings))).2 in
  hasConfigurationCapability s1 = true
  /\ hasWorkspaceFolderCapability s1 = false
  /\ hasDiagnosticRelatedInformationCapability s1 = false.
Proof.
  intros capabilities s1.
  split; [|split; reflexivity].
  apply (proj1 (onInitialize_capabilities capabilities
                  (initialServer (fun _ => defaultSettings)))).
  eexists. split; reflexivity.
Defined.

(** ** The scanner at the edges *)

Section ScannerEdges.

Implicit Types (text : JSString) (document : TextDocument) (s : Server).

Lemma forallb_lookup {A} (f : A -> bool) (l : list A) i x :
  forallb f l = true -> l !! i = Some x -> f x = true.
Proof.
  intros Hall Hi. rewrite forallb_forall in Hall.
  apply Hall, list_elem_of_In, list_elem_of_lookup. eauto.
Qed.

Lemma uppercaseRuns_none text :
  (forall a e, isUppercaseRun text a e = false) -> uppercaseRuns text = [].
Proof. intros H. rewrite uppercaseRuns_runsFrom. apply runsFrom_none. auto. Qed.

(** Every character of a run is a capital of the text. *)
Lemma isUppercaseRun_lookup text a e i :
  isUppercaseRun text a e = true -> a <= i < e ->
  exists c, text !! i = Some c /\ isUpper c = true.
Proof.
  intros Hrun ?. pose proof (isUppercaseRun_end _ _ _ Hrun).
  destruct (runLength_lookup isUpper (drop a text) (i - a)) as (c & Hc & Hup); [lia|].
  rewrite lookup_drop in Hc. replace (a + (i - a)) with i in Hc by lia. eauto.
Qed.

(** X13. With [maxNumberOfProblems] zero or negative there is no finding,
    whatever the text. *)
Theorem findings_nonpositive_cap document s :
  (maxNumberOfProblems (settingsFor document s) <= 0)%Z ->
  findings document s = [].
Proof.
  intros Hcap. rewrite findings_runs.
  replace (Z.to_nat (maxNumberOfProblems (settingsFor document s))) with 0 by lia.
  reflexivity.
Qed.

Lemma findings_nonpositive_cap_witness :
  let document := singleLineDocument (lit "file:///policy.sentinel") (lit "AA BB") in
  findings document (serverWith true false (fun _ => {| maxNumberOfProblems := -3 |}) [])
  = [].
Proof.
  intros document. apply findings_nonpositive_cap. vm_compute. discriminate.
Defined.

(** X14. Raising [maxNumberOfProblems] only adds findings at the end: the
    findings under a smaller cap are the first findings under a larger one. *)
Theorem findings_cap_monotone document s s' :
  hasDiagnosticRelatedInformationCapability s
  = hasDiagnosticRelatedInformationCapability s' ->
  (maxNumberOfProblems (settingsFor document s)
   <= maxNumberOfProblems (settingsFor document s'))%Z ->
  findings document s `prefix_of` findings document s'.
Proof.
  intros Hrel Hle. rewrite !findings_runs, Hrel.
  set (runs := uppercaseRuns (getText document None)).
  set (n := Z.to_nat (maxNumberOfProblems (settingsFor document s))).
  set (m := Z.to_nat (maxNumberOfProblems (settingsFor document s'))).
  assert (n <= m) by lia.
  exists (map (findingFor document (hasDiagnosticRelatedInformationCapability s'))
              (drop n (take m runs))).
  rewrite <- map_app. f_equal.
  rewrite <- (take_drop n (take m runs)) at 1.
  rewrite take_take. f_equal. f_equal. lia.
Qed.

Lemma findings_cap_monotone_witness :
  let document := singleLineDocument (lit "file:///policy.sentinel") (lit "AA BB CC") in
  findings document (serverWith true false (fun _ => {| maxNumberOfProblems := 1 |}) [])
  `prefix_of`
  findings document (serverWith true false (fun _ => {| maxNumberOfProblems := 2 |}) []).
Proof.
  intros document. apply findings_cap_monotone; [reflexivity|].
  vm_compute. discriminate.
Defined.

(** X15. A text in which no two neighbouring characters are both capitals,
    in particular the empty text and a text of one character, has no
    finding. *)
Theorem findings_no_adjacent_capitals document s :
  (forall i c1 c2,
     getText document None !! i = Some c1 ->
     getText document None !! S i = Some c2 ->
     isUpper c1 && isUpper c2 = false) ->
  findings document s = [].
Proof.
  intros Hnone. rewrite findings_runs, uppercaseRuns_none; [now rewrite take_nil|].
  intros a e. destruct (isUppercaseRun _ a e) eqn:Hrun; [|reflexivity].
  pose proof Hrun as ([? ?] & _)%isUppercaseRun_spec.
  destruct (isUppercaseRun_lookup _ _ _ a Hrun) as (c1 & H1 & U1); [lia|].
  destruct (isUppercaseRun_lookup _ _ _ (S a) Hrun) as (c2 & H2 & U2); [lia|].
  rewrite <- (Hnone a c1 c2 H1 H2), U1, U2. reflexivity.
Qed.

Lemma findings_no_adjacent_capitals_witness :
  findings (singleLineDocument (lit "file:///policy.sentinel") (lit "Main = rule { X }"))
           (initialServer (fun _ => defaultSettings))
  = []
  /\ findings (singleLineDocument (lit "file:///policy.sentinel") [])
              (initialServer (fun _ => defaultSettings))
     = [].
Proof.
  split; apply findings_no_adjacent_capitals; simpl; intros i c1 c2 H1 H2.
  - do 17 (destruct i as [|i];
           [simpl in H1, H2;
            first [discriminate
                  |injection H1 as <-; injection H2 as <-; reflexivity]|]).
    simpl in H1. discriminate.
  - discriminate.
Defined.

Lemma wordAt_all text i :
  forallb isWordChar text = true -> i < length text -> wordAt text i = true.
Proof.
  intros Hall Hi. unfold wordAt.
  destruct (lookup_lt_is_Some_2 text i Hi) as [c Hc]. rewrite Hc.
  exact (forallb_lookup _ _ _ _ Hall Hc).
Qed.

Lemma substring_all text : substring text 0 (length text) = text.
Proof. unfold substring. rewrite drop_0, Nat.sub_0_r. apply take_ge. lia. Qed.

(** X16. A text made of word characters only (letters, digits, underscore)
    that are not all capitals has no finding: capitals joined to anything
    else of an identifier, as in FOO_BAR, FOObar or X509, are not reported. *)
Theorem findings_inside_identifier document s :
  forallb isWordChar (getText document None) = true ->
  forallb isUpper (getText document None) = false ->
  findings document s = [].
Proof.
  intros Hword Hmixed. rewrite findings_runs, uppercaseRuns_none; [now rewrite take_nil|].
  set (text := getText document None) in *.
  intros a e. destruct (isUppercaseRun text a e) eqn:Hrun; [|reflexivity].
  apply isUppercaseRun_spec in Hrun as ([? ?] & Hup & Ha & He).
  assert (a = 0) as ->.
  { destruct a as [|a]; [reflexivity|]. unfold wordBoundary in Ha.
    rewrite !wordAt_all in Ha by (assumption || lia). discriminate. }
  assert (e = length text) as ->.
  { destruct (decide (e = length text)); [assumption|].
    destruct e as [|e]; [lia|]. unfold wordBoundary in He.
    rewrite !wordAt_all in He by (assumption || lia). discriminate. }
  rewrite substring_all in Hup. congruence.
Qed.

Lemma findings_inside_identifier_witness :
  findings (singleLineDocument (lit "file:///policy.sentinel") (lit "FOO_BAR"))
           (initialServer (fun _ => defaultSettings))
  = [].
Proof. apply findings_inside_identifier; reflexivity. Defined.

(** X17. A text of two or more characters that are all capitals has, under a
    cap of at least one, exactly one finding: it spans the whole text and its
    message is the text followed by " is all uppercase.". *)
Theorem findings_all_capitals document s :
  forallb isUpper (getText document None) = true ->
  2 <= length (getText document None) ->
  (1 <= maxNumberOfProblems (settingsFor document s))%Z ->
  exists d,
    findings document s = [d]
    /\ range d = {| start := positionAt document 0;
                    end_ := positionAt document (length (getText document None)) |}
    /\ message d = getText document None ++ lit " is all uppercase.".
Proof.
  intros Hup Hlen Hcap. rewrite findings_runs.
  set (text := getText document None) in *.
  assert (isUppercaseRun text 0 (length text) = true) as Hrun.
  { apply isUppercaseRun_spec. rewrite substring_all.
    assert (forallb isWordChar text = true) as Hword.
    { apply forallb_forall. intros c Hc. apply isUpper_isWordChar.
      rewrite forallb_forall in Hup. auto. }
    repeat split; try lia; try assumption.
    - unfold wordBoundary. rewrite wordAt_all by (assumption || lia). reflexivity.
    - unfold wordBoundary. destruct (length text) as [|n] eqn:Hn; [lia|].
      rewrite wordAt_all by (assumption || lia). unfold wordAt.
      rewrite (proj2 (lookup_ge_None text (S n))) by lia. reflexivity. }
  rewrite uppercaseRuns_runsFrom, (runsFrom_first text 0 0 (length text));
    [|lia|exact Hrun|intros; lia].
  rewrite (runsFrom_none text (length text)).
  - replace (Z.to_nat (maxNumberOfProblems (settingsFor document s)))
      with (S (Z.to_nat (maxNumberOfProblems (settingsFor document s)) - 1)) by lia.
    simpl. rewrite take_nil. simpl. eexists. split; [reflexivity|].
    unfold findingFor, diagnosticFor. simpl. fold text.
    rewrite substring_all. auto.
  - intros a e ?. destruct (isUppercaseRun text a e) eqn:Hr; [|reflexivity].
    apply isUppercaseRun_spec in Hr. lia.
Qed.

Lemma findings_all_capitals_witness :
  exists d,
    findings (singleLineDocument (lit "file:///policy.sentinel") (lit "TODO"))
             (initialServer (fun _ => defaultSettings))
    = [d]
    /\ message d = lit "TODO is all uppercase.".
Proof.
  destruct (findings_all_capitals
              (singleLineDocument (lit "file:///policy.sentinel") (lit "TODO"))
              (initialServer (fun _ => defaultSettings)))
    as (d & Hd & _ & Hm); [reflexivity|simpl; lia|vm_compute; discriminate|].
  exists d. split; [exact Hd|exact Hm].
Defined.

End ScannerEdges.

(** ** The completion handler at the edges *)

Section CompletionEdges.

Implicit Types (line spaces : JSString) (name : string) (s : Server).

Lemma completionsFor_nonempty line : completionsFor line <> [].
Proof.
  destruct (completionsFor_cases line) as [->|[name Hin]]; [discriminate|].
  revert Hin. generalize (completionsFor line). intros catalog Hin. simpl in Hin.
  repeat (destruct Hin as [[= <- <-]|Hin]; [discriminate|]). destruct Hin.
Qed.

(** X18. [onCompletion] answers with the empty list exactly when the uri of
    the request is not in the document store; for a known document there is
    always something to offer.  It never changes the state. *)
Theorem onCompletion_empty params s :
  ((onCompletion params s).1 = [] <-> documents s !! textDocument_uri params = None)
  /\ (onCompletion params s).2 = s.
Proof.
  split; [|apply onCompletion_state].
  destruct (documents s !! textDocument_uri params) as [document|] eqn:Hdoc.
  - rewrite (onCompletion_classifies _ _ _ Hdoc). simpl. split; [|discriminate].
    intros H. destruct (completionsFor_nonempty _ H).
  - unfold onCompletion, get, mbind, handler_bind, mret, handler_ret. simpl.
    rewrite Hdoc. simpl. tauto.
Qed.

(** Whitespace, then a dot, against whitespace and anything: the dot comes
    after the shorter whitespace. *)
Lemma spaces_dot_prefix (u v x y : JSString) :
  forallb isSpace u = true -> forallb isSpace v = true ->
  u ++ x = v ++ 46%N :: y ->
  exists v', v = u ++ v' /\ x = v' ++ 46%N :: y.
Proof.
  revert v. induction u as [|c u IH]; intros v Hu Hv Heq; simpl in *.
  - exists v. auto.
  - apply andb_prop in Hu as [Hc Hu]. destruct v as [|c' v]; simpl in *.
    + injection Heq as -> _. discriminate Hc.
    + apply andb_prop in Hv as [_ Hv]. injection Heq as -> Heq.
      destruct (IH v Hu Hv Heq) as (v' & -> & ->). eauto.
Qed.

Lemma forallb_app_true {A} (f : A -> bool) (l1 l2 : list A) :
  forallb f (l1 ++ l2) = true <-> forallb f l1 = true /\ forallb f l2 = true.
Proof. rewrite forallb_app, andb_true_iff. reflexivity. Qed.

Lemma endsWithNamespace_spaces name line spaces :
  forallb isSpace spaces = true ->
  endsWithNamespace name (line ++ spaces) <-> endsWithNamespace name line.
Proof.
  intros Hsp. split.
  - intros (before & spaces' & Heq & Hsp').
    apply (f_equal (@rev N)) in Heq. rewrite !rev_app_distr in Heq.
    simpl in Heq. rewrite <- !app_assoc in Heq. simpl in Heq.
    apply spaces_dot_prefix in Heq as (v' & Hv & Heq);
      [|now apply forallb_rev..].
    exists before, (rev v'). split.
    + apply (f_equal (@rev N)) in Heq.
      rewrite rev_involutive, !rev_app_distr in Heq. simpl in Heq.
      rewrite !rev_app_distr, !rev_involutive in Heq. simpl in Heq.
      rewrite Heq, <- !app_assoc. reflexivity.
    + apply forallb_rev. apply (forallb_rev isSpace) in Hsp'.
      rewrite Hv in Hsp'. apply forallb_app_true in Hsp'. tauto.
  - intros (before & spaces' & -> & Hsp'). exists before, (spaces' ++ spaces).
    split; [now rewrite <- !app_assoc|]. apply forallb_app_true. auto.
Qed.

Lemma test_namespaceDot_spaces name line spaces :
  forallb isSpace spaces = true ->
  test (namespaceDot name) (line ++ spaces) = test (namespaceDot name) line.
Proof.
  intros Hsp. apply Bool.eq_iff_eq_true.
  rewrite !test_namespaceDot. now apply endsWithNamespace_spaces.
Qed.

(** X19. Whitespace typed at the end of the line never changes the answer:
    the completions for a line followed by whitespace are those for the line
    itself. *)
Theorem completionsFor_trailing_spaces line spaces :
  forallb isSpace spaces = true ->
  completionsFor (line ++ spaces) = completionsFor line.
Proof.
  intros Hsp. unfold completionsFor.
  now rewrite !(test_namespaceDot_spaces _ line spaces Hsp).
Qed.

Lemma completionsFor_trailing_spaces_witness :
  completionsFor (lit "x = time." ++ lit "   ") = completionsFor (lit "x = time.").
Proof. apply completionsFor_trailing_spaces. reflexivity. Defined.

Lemma completionsFor_no_trigger line :
  (forall name, ~ endsWithNamespace name line) ->
  completionsFor line = defaultCatalog.
Proof.
  intros Hnone. unfold completionsFor.
  repeat match goal with
    | |- context [test (namespaceDot ?n) ?l] =>
        let Ht := fresh "Ht" in
        destruct (test (namespaceDot n) l) eqn:Ht;
        [ exfalso; apply test_namespaceDot in Ht; exact (Hnone n Ht) | ]
    end.
  reflexivity.
Qed.

(** X20. The namespace catalogs are offered only right after the dot.  When
    the last character before the trailing whitespace is not a dot, for
    instance once a first letter of the member is typed, and when the line is
    empty or blank, the answer is the default catalog. *)
Theorem completionsFor_after_dot before (c : N) spaces :
  forallb isSpace spaces = true ->
  (c =? 46)%N = false ->
  isSpace c = false ->
  completionsFor (before ++ c :: spaces) = defaultCatalog
  /\ completionsFor spaces = defaultCatalog.
Proof.
  intros Hsp Hdot Hc. split.
  - apply completionsFor_no_trigger. intros name H.
    change (before ++ c :: spaces) with (before ++ [c] ++ spaces) in H.
    rewrite app_assoc in H. apply endsWithNamespace_spaces in H; [|assumption].
    destruct H as (b & sp & Heq & Hsp').
    apply (f_equal (@rev N)) in Heq. rewrite !rev_app_distr in Heq.
    simpl in Heq. rewrite <- !app_assoc in Heq. simpl in Heq.
    destruct (rev sp) as [|c' sp'] eqn:Hrev; simpl in Heq.
    + injection Heq as -> _. discriminate Hdot.
    + injection Heq as -> _. apply (forallb_rev isSpace) in Hsp'.
      rewrite Hrev in Hsp'. simpl in Hsp'. rewrite Hc in Hsp'. discriminate.
  - apply completionsFor_no_trigger. intros name H.
    rewrite <- (app_nil_l spaces) in H.
    apply endsWithNamespace_spaces in H as (b & sp & Heq & _); [|assumption].
    apply (f_equal length) in Heq. rewrite !length_app in Heq. simpl in Heq. lia.
Qed.

Lemma completionsFor_after_dot_witness :
  completionsFor (lit "x = strings.h") = defaultCatalog
  /\ completionsFor (lit "  ") = defaultCatalog.
Proof.
  split.
  - apply (completionsFor_after_dot (lit "x = strings.") 104%N []); reflexivity.
  - apply (completionsFor_after_dot [] 104%N (lit "  ")); reflexivity.
Defined.

(** X21. Resolving never alters the label, the kind or the id of an item, and
    resolving an item that was already resolved returns it as it is. *)
Theorem onCompletionResolve_idempotent it :
  label (onCompletionResolve it) = label it
  /\ kind (onCompletionResolve it) = kind it
  /\ data (onCompletionResolve it) = data it
  /\ onCompletionResolve (onCompletionResolve it) = onCompletionResolve it.
Proof.
  unfold onCompletionResolve.
  destruct (Z.eqb_spec (data it) 1) as [H1|H1]; simpl.
  - rewrite H1. simpl. auto.
  - destruct (Z.eqb_spec (data it) 1); [contradiction|auto].
Qed.

End CompletionEdges.
